(** * coreboot: program loading interface, AMD 8132 PCI-X tuning and
      Supermicro X12SPW GPIO glue

    A shallow embedding of
    - [src/include/program_loading.h] (struct prog, its inline accessors and
      setters, and the dispatch points it declares),
    - the AMD 8132 PCI-X bridge driver: the tuning of a device
      ([amd8132_pcix_tune_dev]), the walk over the bus, the count of bus
      masters and the scan ([amd8132_walk_children], [amd8132_count_dev],
      [amd8132_scan_bus]), and the initialisation of the bridge and of its
      IOAPIC ([amd8132_pcix_init], [ioapic_enable], [amd8132_ioapic_init]),
    - [mainboard/supermicro/x12spw/variants/x12spw-f/gpio.c],
    - the DQ and DQS byte maps of [mainboard/supermicro/x12spw/spd/spd_util.c].

    C objects that are mutated through a pointer are passed and returned
    explicitly; calls to functions whose bodies live elsewhere (platform and
    architecture hooks, PCI configuration writes, the GPIO pad driver) are
    recorded in a trace of events. *)

From Stdlib Require Import ZArith List String Bool Lia Permutation.
Import ListNotations.
Open Scope Z_scope.

(** ** Machine integers *)

(** [unsigned] / [u32]: value reduced modulo 2^32. *)
Definition u32 (x : Z) : Z := x mod 2 ^ 32.

(** [u16]: value reduced modulo 2^16. *)
Definition u16 (x : Z) : Z := x mod 2 ^ 16.

(** [int]: two's complement value of the low 32 bits. *)
Definition s32 (x : Z) : Z := (x + 2 ^ 31) mod 2 ^ 32 - 2 ^ 31.

(** [x] has no bit set at position [k] or above: it fits in [k] bits. *)
Definition bits_below (k x : Z) : Prop :=
  forall n : Z, k <= n -> Z.testbit x n = false.

(** ** src/include/program_loading.h *)

Module ProgramLoading.

(** [enum { SEG_FINAL = 1 << 0 }] *)
Definition SEG_FINAL : Z := Z.shiftl 1 0.

Inductive enum_prog_type : Type :=
| PROG_UNKNOWN
| PROG_BOOTBLOCK
| PROG_VERSTAGE
| PROG_ROMSTAGE
| PROG_RAMSTAGE
| PROG_REFCODE
| PROG_PAYLOAD
| PROG_BL31
| PROG_BL32
| PROG_POSTCAR
| PROG_OPENSBI.

(** Modelled from the spec: the address spaces a Region Descriptor can be a
    span of ([commonlib/region.h] is not part of the sources).  The header
    only names the 32-bit flat address space; located file data lives on a
    boot medium. *)
Inductive rdev_root : Type :=
| flat_32bit
| boot_medium (id : string).

(** Modelled from the spec: [struct region_device], the Region Descriptor.
    "backing_region is either absent or refers to a single contiguous
    addressable span".  The zero-initialised device is the absent one. *)
Inductive region_device : Type :=
| rdev_absent
| rdev_span (root : rdev_root) (offset size : Z).

(** Modelled from the spec: [struct mem_region_device], a memory-backed root
    device; only its [rdev] member is used by the header. *)
Record mem_region_device : Type := {
  mrdev_base : Z;
  mrdev_rdev : region_device
}.

(** Modelled from the spec: [addrspace_32bit] is declared [extern] and defined
    elsewhere; "the lowest 4 GiB of physical address space". *)
Definition addrspace_32bit : mem_region_device :=
  {| mrdev_base := 0; mrdev_rdev := rdev_span flat_32bit 0 (2 ^ 32) |}.

(** Modelled from the spec: [rdev_chain] (commonlib/region.c is not part of
    the sources), the "sub-span chaining" operation: the child becomes the
    span of [size] bytes at [offset] inside the parent; whatever the child
    referred to before is discarded. *)
Definition rdev_chain (child parent : region_device) (offset size : Z)
  : region_device :=
  match parent with
  | rdev_absent => rdev_absent
  | rdev_span root base _ => rdev_span root (base + offset) size
  end.

(** [struct prog].  Pointers ([entry], [arg]) are addresses, NULL is 0;
    [enum cbfs_type] is kept as its integer value. *)
Record prog : Type := {
  type : enum_prog_type;
  cbfs_type : Z;
  name : string;
  rdev : region_device;
  entry : Z;
  arg : Z
}.

(** [PROG_INIT(type_, name_)]: designated initialiser, every other member is
    zero-initialised. *)
Definition PROG_INIT (type_ : enum_prog_type) (name_ : string) : prog :=
  {| type := type_; cbfs_type := 0; name := name_; rdev := rdev_absent;
     entry := 0; arg := 0 |}.

Definition prog_name (p : prog) : string := name p.
Definition prog_type (p : prog) : enum_prog_type := type p.
Definition prog_cbfs_type (p : prog) : Z := cbfs_type p.
Definition prog_entry (p : prog) : Z := entry p.
Definition prog_entry_arg (p : prog) : Z := arg p.

(** Assignment to the member [prog->rdev]. *)
Definition set_rdev (p : prog) (r : region_device) : prog :=
  {| type := type p; cbfs_type := cbfs_type p; name := name p; rdev := r;
     entry := entry p; arg := arg p |}.

(** [rdev_chain(&prog->rdev, &addrspace_32bit.rdev, ptr, size)]; the status
    returned by [rdev_chain] is not looked at. *)
Definition prog_memory_init (p : prog) (ptr size : Z) : prog :=
  set_rdev p (rdev_chain (rdev p) (mrdev_rdev addrspace_32bit) ptr size).

(** [prog_memory_init(prog, (uintptr_t)start, size)] *)
Definition prog_set_area (p : prog) (start size : Z) : prog :=
  prog_memory_init p start size.

(** [prog->entry = e; prog->arg = arg;] *)
Definition prog_set_entry (p : prog) (e a : Z) : prog :=
  {| type := type p; cbfs_type := cbfs_type p; name := name p; rdev := rdev p;
     entry := e; arg := a |}.

(** [prog->arg = arg;] *)
Definition prog_set_arg (p : prog) (a : Z) : prog :=
  {| type := type p; cbfs_type := cbfs_type p; name := name p; rdev := rdev p;
     entry := entry p; arg := a |}.

(** *** Calls that leave the header

    The bodies of [prog_locate_hook], of the loaders' callbacks and of the
    platform and architecture hooks are supplied per target.  A call to one
    of them is recorded as an event, with the arguments it receives. *)

Inductive event : Type :=
| ev_prog_locate_hook (p : prog)
| ev_is_loader_active (loader : string) (p : prog)
| ev_locate (loader : string) (p : prog)
| ev_platform_segment_loaded (start size flags : Z)
| ev_arch_segment_loaded (start size flags : Z)
| ev_platform_prog_run (p : prog)
| ev_arch_prog_run (p : prog).

(** A computation that returns a value and the calls it made, in order. *)
Definition traced (A : Type) : Type := (A * list event)%type.

Definition ret {A : Type} (a : A) : traced A := (a, []).

Definition bind {A B : Type} (m : traced A) (k : A -> traced B) : traced B :=
  let (a, t1) := m in
  let (b, t2) := k a in
  (b, t1 ++ t2).

Definition call (e : event) : traced unit := (tt, [e]).

Notation "x <- m ;; k" := (bind m (fun x => k))
  (at level 61, m at next level, right associativity).
Notation "m ;;; k" := (bind m (fun _ => k))
  (at level 61, right associativity).

Definition value_of {A : Type} (m : traced A) : A := fst m.
Definition trace_of {A : Type} (m : traced A) : list event := snd m.

(** [struct prog_loader_ops].  [is_loader_active] "returns 1 [if active] else
    0 or < 0 on error".  [locate] "locates the rdev representing the file data
    associated with the passed in prog" and "returns < 0 on error or 0 on
    success": it is handed the descriptor by pointer and writes the
    descriptor's [rdev] itself, so it yields its [int] status together with
    the [rdev] it leaves in the descriptor, whatever the status. *)
Record prog_loader_ops : Type := {
  ops_name : string;
  is_loader_active : prog -> Z;
  locate : prog -> Z * region_device
}.


(** The error kinds of the Locator. *)
Inductive locate_error : Type :=
| PolicyDenied
| NoActiveLoader
| LoaderLocateFailed.

Inductive locate_result : Type :=
| LocateOk
| LocateFailed (e : locate_error).

(** The [int] that [prog_locate] returns: "Return 0 on success. < 0 on
    error." *)
Definition locate_rc (r : locate_result) : Z :=
  match r with
  | LocateOk => 0
  | LocateFailed _ => -1
  end.

(** One segment of a program image: where it was placed and how long it is. *)
Record segment : Type := {
  seg_start : Z;
  seg_size : Z
}.

(** The operations of the interface that act on a descriptor. *)
Inductive prog_op : Type :=
| op_set_area (start size : Z)
| op_memory_init (ptr size : Z)
| op_set_entry (e a : Z)
| op_set_arg (a : Z)
| op_locate
| op_run.

(** Modelled from the spec: [prog_segment_loaded] is only declared in the
    header (its body is not part of the sources).  "platform_segment_loaded()
    and arch_segment_loaded() are called in that order within
    prog_segment_loaded()", each with the segment's start, size and flags. *)
Definition prog_segment_loaded (start size flags : Z) : traced unit :=
  call (ev_platform_segment_loaded start size flags) ;;;
  call (ev_arch_segment_loaded start size flags).

(** Modelled from the spec: the load step (the callers of
    [prog_segment_loaded] are not part of the sources).  Every segment is
    reported in image order; "the SEG_FINAL flag will be set on the last
    segment loaded", the others are reported with no flag. *)
Fixpoint load_segments (segs : list segment) : traced unit :=
  match segs with
  | [] => ret tt
  | s :: rest =>
      match rest with
      | [] => prog_segment_loaded (seg_start s) (seg_size s) SEG_FINAL
      | _ :: _ =>
          prog_segment_loaded (seg_start s) (seg_size s) 0 ;;;
          load_segments rest
      end
  end.

(** The error kind of the Runner, and how a run ends. *)
Inductive run_error : Type :=
| InvalidEntryPoint.

Inductive run_result : Type :=
| RunDispatched
| RunRejected (e : run_error).

(** Modelled from the spec: [prog_run] is only declared in the header.
    "[run] on a descriptor with an absent entry point is rejected/fatal,
    never silently proceeds" ([InvalidEntryPoint]; the absent entry point is
    the NULL of [PROG_INIT]).  Otherwise it "calls, in order: a
    platform-specific pre-run hook, then an architecture-specific
    transfer-of-control operation".  The function itself assigns to no member
    of the descriptor, which is handed back as it came. *)
Definition prog_run (p : prog) : traced (run_result * prog) :=
  if entry p =? 0 then ret (RunRejected InvalidEntryPoint, p)
  else
    call (ev_platform_prog_run p) ;;;
    call (ev_arch_prog_run p) ;;;
    ret (RunDispatched, p).

Section Locator.

(** The answer of the policy hook ("a 0 return value allows further progress
    while a non-zero return value prohibits further progress"). *)
Variable prog_locate_hook : prog -> Z.

(** The statically registered loader strategies, in priority order. *)
Variable loaders : list prog_loader_ops.

(** Modelled from the spec: steps 2 and 3 of the Locator.  Inactive
    strategies (result 0, or negative for an error) are skipped; the first
    active strategy's [locate] decides: status 0 is success, any other
    status is the loader's failure.  Either way the descriptor has the
    [rdev] the loader left in it. *)
Fixpoint try_loaders (ls : list prog_loader_ops) (p : prog)
  : traced (locate_result * prog) :=
  match ls with
  | [] => ret (LocateFailed NoActiveLoader, p)
  | ops :: rest =>
      active <- (call (ev_is_loader_active (ops_name ops) p) ;;;
                 ret (is_loader_active ops p)) ;;
      if 0 <? active then
        found <- (call (ev_locate (ops_name ops) p) ;;;
                  ret (locate ops p)) ;;
        if fst found =? 0 then ret (LocateOk, set_rdev p (snd found))
        else ret (LocateFailed LoaderLocateFailed, set_rdev p (snd found))
      else try_loaders rest p
  end.

(** Modelled from the spec: [prog_locate] is only declared in the header.
    Step 1 of the Locator: the policy hook is asked first and a non-zero
    answer fails the call at once; otherwise the strategies are tried. *)
Definition prog_locate (p : prog) : traced (locate_result * prog) :=
  denied <- (call (ev_prog_locate_hook p) ;;; ret (prog_locate_hook p)) ;;
  if negb (denied =? 0) then ret (LocateFailed PolicyDenied, p)
  else try_loaders loaders p.

Definition apply_op (op : prog_op) (p : prog) : traced prog :=
  match op with
  | op_set_area start size => ret (prog_set_area p start size)
  | op_memory_init ptr size => ret (prog_memory_init p ptr size)
  | op_set_entry e a => ret (prog_set_entry p e a)
  | op_set_arg a => ret (prog_set_arg p a)
  | op_locate => r <- prog_locate p ;; ret (snd r)
  | op_run => r <- prog_run p ;; ret (snd r)
  end.

Fixpoint apply_ops (ops : list prog_op) (p : prog) : traced prog :=
  match ops with
  | [] => ret p
  | op :: rest => q <- apply_op op p ;; apply_ops rest q
  end.

End Locator.

(** *** Observations on traces *)

Definition is_locate_call (e : event) : bool :=
  match e with
  | ev_locate _ _ => true
  | _ => false
  end.

(** Number of loader [locate] operations invoked. *)
Definition locate_calls (t : list event) : nat :=
  List.length (filter is_locate_call t).

(** The flags a segment hook was called with, if the event is such a call. *)
Definition platform_flags (e : event) : option Z :=
  match e with
  | ev_platform_segment_loaded _ _ flags => Some flags
  | _ => None
  end.

Definition is_final_platform_call (e : event) : bool :=
  match platform_flags e with
  | Some flags => negb (Z.land flags SEG_FINAL =? 0)
  | None => false
  end.

(** Number of segments reported with [SEG_FINAL] set. *)
Definition final_segments (t : list event) : nat :=
  List.length (filter is_final_platform_call t).

(** The two hook calls made for a segment reported with [flags]. *)
Definition dispatch (s : segment) (flags : Z) : list event :=
  [ev_platform_segment_loaded (seg_start s) (seg_size s) flags;
   ev_arch_segment_loaded (seg_start s) (seg_size s) flags].

(** *** A sample configuration

    The scenarios of the spec: a policy that denies the verification stage,
    a loader that is not active and one that is and finds every file. *)

Definition deny_verstage (p : prog) : Z :=
  match type p with
  | PROG_VERSTAGE => 1
  | _ => 0
  end.

Definition loader_A : prog_loader_ops :=
  {| ops_name := "A"%string; is_loader_active := fun _ => 0;
     locate := fun _ => (0, rdev_span (boot_medium "A"%string) 0 16) |}.

Definition loader_B : prog_loader_ops :=
  {| ops_name := "B"%string; is_loader_active := fun _ => 1;
     locate := fun _ => (0, rdev_span (boot_medium "B"%string) 4096 512) |}.



Definition three_segments : list segment :=
  [ {| seg_start := 4096; seg_size := 10 |};
    {| seg_start := 8192; seg_size := 20 |};
    {| seg_start := 12288; seg_size := 5 |} ].

End ProgramLoading.

(** ** AMD 8132 PCI-X bridge: tuning of the devices behind it *)

Module Amd8132.

(** The register layout macros the driver takes from [device/pci.h] and
    [device/pcix.h], which are not part of the sources: they are parameters
    of the model. *)
Class pci_defs : Type := {
  PCI_HEADER_TYPE_NORMAL : Z;
  PCI_CAP_ID_PCIX : Z;
  PCI_X_CMD : Z;
  PCI_X_CMD_DPERR_E : Z;
  PCI_X_CMD_MAX_READ : Z;
  PCI_X_CMD_MAX_SPLIT : Z;
  PCI_X_STATUS : Z;
  PCI_X_STATUS_MAX_READ : Z;
  PCI_X_STATUS_MAX_SPLIT : Z
}.

(** The members of [struct device] the tuning code looks at; [devfn]
    identifies the device in configuration space. *)
Record device : Type := {
  devfn : Z;
  hdr_type : Z
}.

(** What configuration space answers when the function runs:
    [pci_find_capability], [pci_read_config32] and [pci_read_config16]. *)
Class pci_config : Type := {
  pci_find_capability : device -> Z -> Z;
  pci_read_config32 : device -> Z -> Z;
  pci_read_config16 : device -> Z -> Z
}.

(** A call [pci_write_config16(dev, reg, value)]. *)
Inductive pci_write : Type :=
| pci_write_config16 (dev : device) (reg value : Z).

Definition written_value (w : pci_write) : Z :=
  match w with
  | pci_write_config16 _ _ value => value
  end.

(** [struct amd8132_bus_info] *)
Record amd8132_bus_info : Type := {
  sstatus : Z;
  rev : Z;
  master_devices : Z;
  max_func : Z
}.

Section Tune.

Context {defs : pci_defs} {cfg : pci_config}.

(** [cap = pci_find_capability(dev, PCI_CAP_ID_PCIX)] *)
Definition pcix_cap (dev : device) : Z :=
  u32 (pci_find_capability dev PCI_CAP_ID_PCIX).

(** [status = pci_read_config32(dev, cap + PCI_X_STATUS)] *)
Definition pcix_status (dev : device) : Z :=
  u32 (pci_read_config32 dev (u32 (pcix_cap dev + PCI_X_STATUS))).

(** [orig_cmd = cmd = pci_read_config16(dev, cap + PCI_X_CMD)] *)
Definition pcix_orig_cmd (dev : device) : Z :=
  u16 (pci_read_config16 dev (u32 (pcix_cap dev + PCI_X_CMD))).

(** [sibs = info->master_devices - 1] *)
Definition sibs_of (info : amd8132_bus_info) : Z :=
  s32 (master_devices info - 1).

(** [max_read = (status & PCI_X_STATUS_MAX_READ) >> 21] *)
Definition status_max_read (status : Z) : Z :=
  Z.shiftr (Z.land status (u32 PCI_X_STATUS_MAX_READ)) 21.

(** [max_tran = (status & PCI_X_STATUS_MAX_SPLIT) >> 23] *)
Definition status_max_tran (status : Z) : Z :=
  Z.shiftr (Z.land status (u32 PCI_X_STATUS_MAX_SPLIT)) 23.

(** The block [if (info->rev == 0x01) { ... }] (Errata #53): the value of
    [max_tran] when the block is left. *)
Definition errata53 (info : amd8132_bus_info) (max_tran : Z) : Z :=
  if rev info =? 1 then
    if 2 <=? sibs_of info then
      if 1 <? max_tran then 1 else max_tran
    else if sibs_of info =? 1 then
      if 3 <? max_tran then 3 else max_tran
    else
      if 4 <? max_tran then 4 else max_tran
  else max_tran.

(** [max_tran] after the errata block, from what the status register says. *)
Definition tuned_max_tran (info : amd8132_bus_info) (status : Z) : Z :=
  errata53 info (status_max_tran status).

(** [cmd &= ~mask] on [unsigned]. *)
Definition clear_bits (cmd mask : Z) : Z :=
  u32 (Z.land cmd (Z.lnot mask)).

(** [if (max_read != ((cmd & PCI_X_CMD_MAX_READ) >> 2)) { ... }] *)
Definition update_max_read (max_read cmd : Z) : Z :=
  if negb (max_read =? Z.shiftr (Z.land cmd (u32 PCI_X_CMD_MAX_READ)) 2) then
    u32 (Z.lor (clear_bits cmd PCI_X_CMD_MAX_READ) (u32 (Z.shiftl max_read 2)))
  else cmd.

(** [if (max_tran != ((cmd & PCI_X_CMD_MAX_SPLIT) >> 4)) { ... }] *)
Definition update_max_tran (max_tran cmd : Z) : Z :=
  if negb (max_tran =? Z.shiftr (Z.land cmd (u32 PCI_X_CMD_MAX_SPLIT)) 4) then
    u32 (Z.lor (clear_bits cmd PCI_X_CMD_MAX_SPLIT) (u32 (Z.shiftl max_tran 4)))
  else cmd.

(** The value of [cmd] when line [if (orig_cmd != cmd)] is reached. *)
Definition tuned_cmd (info : amd8132_bus_info) (status orig_cmd : Z) : Z :=
  let max_read := status_max_read status in
  let max_tran := tuned_max_tran info status in
  let cmd := update_max_read max_read orig_cmd in
  let cmd := update_max_tran max_tran cmd in
  clear_bits cmd PCI_X_CMD_DPERR_E.

(** [amd8132_pcix_tune_dev(dev, ptr)]: the configuration writes it performs,
    in order.  The [printk] is console output only. *)
Definition amd8132_pcix_tune_dev (dev : device) (info : amd8132_bus_info)
  : list pci_write :=
  if negb (hdr_type dev =? PCI_HEADER_TYPE_NORMAL) then []
  else
    let cap := pcix_cap dev in
    if cap =? 0 then []
    else
      let status := pcix_status dev in
      let orig_cmd := pcix_orig_cmd dev in
      let cmd := tuned_cmd info status orig_cmd in
      if negb (orig_cmd =? cmd) then
        [pci_write_config16 dev (u32 (cap + PCI_X_CMD)) (u16 cmd)]
      else [].

End Tune.

(** The limit the errata comments give for a bus with [sibs] siblings. *)
Definition split_limit (sibs : Z) : Z :=
  if 2 <=? sibs then 1 else if sibs =? 1 then 3 else 4.

(** The PCI-X capability layout of the PCI-X addendum, for the examples. *)
Definition pcix_layout : pci_defs :=
  {| PCI_HEADER_TYPE_NORMAL := 0;
     PCI_CAP_ID_PCIX := 7;
     PCI_X_CMD := 2;
     PCI_X_CMD_DPERR_E := 1;
     PCI_X_CMD_MAX_READ := 12;
     PCI_X_CMD_MAX_SPLIT := 112;
     PCI_X_STATUS := 4;
     PCI_X_STATUS_MAX_READ := 6291456;
     PCI_X_STATUS_MAX_SPLIT := 58720256 |}.

(** A device with the capability at 0x60, status 0x03e00000 (largest read
    and split fields) and command 0x0001. *)
Definition sample_config : pci_config :=
  {| pci_find_capability := fun _ _ => 96;
     pci_read_config32 := fun _ _ => 65011712;
     pci_read_config16 := fun _ _ => 1 |}.

Definition sample_device : device := {| devfn := 8; hdr_type := 0 |}.

Definition sample_info (r m : Z) : amd8132_bus_info :=
  {| sstatus := 0; rev := r; master_devices := m; max_func := 0 |}.

End Amd8132.

(** ** Supermicro X12SPW-F: GPIO configuration *)

Module X12spw.

Section Gpio.

(** [struct pad_config], the table [gpio_table] of "x12spw_pch_gpio.h", the
    state of the pads and the SoC driver's [gpio_configure_pads] are not part
    of the sources: they are parameters of the model. *)
Variable pad_config : Type.
Variable gpio_table : list pad_config.
Variable pad_state : Type.
Variable gpio_configure_pads : list pad_config -> Z -> pad_state -> pad_state.

(** A call [gpio_configure_pads(cfg, num)]. *)
Inductive gpio_call : Type :=
| call_gpio_configure_pads (cfg : list pad_config) (num : Z).

Definition ARRAY_SIZE (table : list pad_config) : Z :=
  Z.of_nat (List.length table).

(** [gpio_configure_pads(gpio_table, ARRAY_SIZE(gpio_table));] *)
Definition mainboard_configure_gpios (s : pad_state)
  : pad_state * list gpio_call :=
  (gpio_configure_pads gpio_table (ARRAY_SIZE gpio_table) s,
   [call_gpio_configure_pads gpio_table (ARRAY_SIZE gpio_table)]).

(** [gpio_configure_pads(gpio_table, ARRAY_SIZE(gpio_table));] *)
Definition mainboard_configure_early_gpios (s : pad_state)
  : pad_state * list gpio_call :=
  (gpio_configure_pads gpio_table (ARRAY_SIZE gpio_table) s,
   [call_gpio_configure_pads gpio_table (ARRAY_SIZE gpio_table)]).

End Gpio.

End X12spw.

(** ** AMD 8132: the bus walk, the scan and the bridge and IOAPIC set-up *)

Module Amd8132Bus.

Import Amd8132.

(** [u8]: value reduced modulo 2^8. *)
Definition u8 (x : Z) : Z := x mod 2 ^ 8.

(** Further macros of [device/pci.h], [device/pcix.h] and [device/path.h]
    that are not part of the sources; [PCI_FUNC] and [PCI_X_SSTATUS_MFREQ]
    are function-like macros. *)
Class bus_defs : Type := {
  DEVICE_PATH_PCI : Z;
  PCI_HEADER_TYPE_BRIDGE : Z;
  PCI_FUNC : Z -> Z;
  PCI_CLASS_REVISION : Z;
  PCI_COMMAND : Z;
  PCI_CACHE_LINE_SIZE : Z;
  PCI_X_SEC_STATUS : Z;
  PCI_X_SSTATUS_MFREQ : Z -> Z;
  PCI_X_SSTATUS_CONVENTIONAL_PCI : Z
}.

(** A device as it hangs on a bus: the device, its [path.type], and the
    children of its [link[0]] (the [sibling] chain of [link[0].children]). *)
#[warnings="-register-all"]
Inductive dev_node : Type :=
| DevNode (d : device) (path_type : Z) (link0 : list dev_node).

(** [struct bus]: the bridge the bus belongs to and its [children]. *)
Record bus : Type := {
  bus_dev : device;
  children : list dev_node
}.

(** Induction over a device and, through [link0], everything below it. *)
Section DevNodeInduction.

Variable P : dev_node -> Prop.
Hypothesis step :
  forall (d : device) (pt : Z) (kids : list dev_node),
    Forall P kids -> P (DevNode d pt kids).

Fixpoint dev_node_below (n : dev_node) : P n :=
  match n with
  | DevNode d pt kids =>
      step d pt kids
        ((fix below (l : list dev_node) : Forall P l :=
            match l with
            | [] => Forall_nil P
            | c :: r => Forall_cons c (dev_node_below c) (below r)
            end) kids)
  end.

End DevNodeInduction.

Section Walk.

Context {bdefs : bus_defs}.

(** What the visitor updates through [ptr], and the visitor. *)
Variable S : Type.
Variable visit : device -> S -> S.

(** One turn of the [for] loop of [amd8132_walk_children]: a child that is
    not on a PCI path is passed over; below a bridge the walk recurses into
    [link[0]] first; then the child is visited. *)
Fixpoint walk_child (child : dev_node) (st : S) : S :=
  match child with
  | DevNode d pt kids =>
      if negb (pt =? DEVICE_PATH_PCI) then st
      else
        visit d
          (if hdr_type d =? PCI_HEADER_TYPE_BRIDGE then
             (fix loop (l : list dev_node) (st : S) : S :=
                match l with
                | [] => st
                | c :: r => loop r (walk_child c st)
                end) kids st
           else st)
  end.

(** [amd8132_walk_children(bus, visit, ptr)]:
    [for (child = bus->children; child; child = child->sibling)]. *)
Fixpoint amd8132_walk_children (l : list dev_node) (st : S) : S :=
  match l with
  | [] => st
  | c :: r => amd8132_walk_children r (walk_child c st)
  end.

End Walk.

Arguments walk_child {bdefs S} visit child st.
Arguments amd8132_walk_children {bdefs S} visit l st.

Section Count.

Context {bdefs : bus_defs}.

(** [amd8132_count_dev(dev, ptr)]: [info->master_devices++] unless the
    device is a bridge; [info->max_func] follows the largest function
    number.  The comparison is made on the values; for the non-negative
    [max_func] that the scan has this is the comparison C makes. *)
Definition amd8132_count_dev (dev : device) (info : amd8132_bus_info)
  : amd8132_bus_info :=
  let info :=
    if negb (hdr_type dev =? PCI_HEADER_TYPE_BRIDGE) then
      {| sstatus := sstatus info; rev := rev info;
         master_devices := s32 (master_devices info + 1);
         max_func := max_func info |}
    else info in
  if max_func info <? PCI_FUNC (devfn dev) then
    {| sstatus := sstatus info; rev := rev info;
       master_devices := master_devices info;
       max_func := s32 (PCI_FUNC (devfn dev)) |}
  else info.

(** The devices the walk hands to its visitor, in the order of the calls:
    the walk run with a visitor that writes its argument down. *)
Definition visited (l : list dev_node) : list device :=
  amd8132_walk_children (fun d seen => seen ++ [d]) l [].

(** The same order, read off the tree: devices off the PCI path are left
    out together with what is below them, what is below a bridge comes
    before the bridge. *)
Fixpoint visit_order_of (n : dev_node) : list device :=
  match n with
  | DevNode d pt kids =>
      if negb (pt =? DEVICE_PATH_PCI) then []
      else
        (if hdr_type d =? PCI_HEADER_TYPE_BRIDGE
         then flat_map visit_order_of kids else []) ++ [d]
  end.

Definition visit_order (l : list dev_node) : list device :=
  flat_map visit_order_of l.

(** "Don't count pci bridges". *)
Definition is_master (d : device) : bool :=
  negb (hdr_type d =? PCI_HEADER_TYPE_BRIDGE).

End Count.

(** *** Configuration space as state *)

(** The configuration accessors of [device/pci_ops.h] and [pci_scan_bus],
    none of them part of the sources, over a state [hw] of the machine. *)
Class pci_hw : Type := {
  hw : Type;
  hw_find_capability : hw -> device -> Z -> Z;
  hw_read_config8 : hw -> device -> Z -> Z;
  hw_read_config16 : hw -> device -> Z -> Z;
  hw_read_config32 : hw -> device -> Z -> Z;
  hw_write_config8 : hw -> device -> Z -> Z -> hw;
  hw_write_config16 : hw -> device -> Z -> Z -> hw;
  hw_write_config32 : hw -> device -> Z -> Z -> hw;
  hw_scan_bus : hw -> bus -> Z -> Z -> Z -> hw * bus * Z
}.

(** A configuration write of the driver. *)
Inductive config_write : Type :=
| cfg_write8 (dev : device) (reg value : Z)
| cfg_write16 (w : pci_write)
| cfg_write32 (dev : device) (reg value : Z).

Definition write_dev (w : config_write) : device :=
  match w with
  | cfg_write8 dev _ _ => dev
  | cfg_write16 (pci_write_config16 dev _ _) => dev
  | cfg_write32 dev _ _ => dev
  end.

Definition write_reg (w : config_write) : Z :=
  match w with
  | cfg_write8 _ reg _ => reg
  | cfg_write16 (pci_write_config16 _ reg _) => reg
  | cfg_write32 _ reg _ => reg
  end.

Definition write_value (w : config_write) : Z :=
  match w with
  | cfg_write8 _ _ value => value
  | cfg_write16 (pci_write_config16 _ _ value) => value
  | cfg_write32 _ _ value => value
  end.

Section Config.

Context {defs : pci_defs} {bdefs : bus_defs} {hwc : pci_hw}.

(** A computation on configuration space: its result, the state it leaves
    and the writes it made, in order. *)
Definition cfgM (A : Type) : Type := hw -> A * hw * list config_write.

Definition cfg_ret {A : Type} (a : A) : cfgM A := fun h => (a, h, []).

Definition cfg_bind {A B : Type} (m : cfgM A) (k : A -> cfgM B) : cfgM B :=
  fun h =>
    let '(a, h1, w1) := m h in
    let '(b, h2, w2) := k a h1 in
    (b, h2, w1 ++ w2).

Definition read8 (dev : device) (reg : Z) : cfgM Z :=
  fun h => (u8 (hw_read_config8 h dev reg), h, []).

Definition read32 (dev : device) (reg : Z) : cfgM Z :=
  fun h => (u32 (hw_read_config32 h dev reg), h, []).

Definition write8 (dev : device) (reg value : Z) : cfgM unit :=
  fun h => (tt, hw_write_config8 h dev reg (u8 value),
            [cfg_write8 dev reg (u8 value)]).

Definition write32 (dev : device) (reg value : Z) : cfgM unit :=
  fun h => (tt, hw_write_config32 h dev reg (u32 value),
            [cfg_write32 dev reg (u32 value)]).

Definition result_of {A : Type} (m : cfgM A) (h : hw) : A := fst (fst (m h)).
Definition state_of {A : Type} (m : cfgM A) (h : hw) : hw := snd (fst (m h)).
Definition writes_of {A : Type} (m : cfgM A) (h : hw) : list config_write :=
  snd (m h).

End Config.

Notation "x <~ m ;; k" := (cfg_bind m (fun x => k))
  (at level 61, m at next level, right associativity).
Notation "m ;;~ k" := (cfg_bind m (fun _ => k))
  (at level 61, right associativity).

(** [dword |= mask] on [u32]. *)
Definition set_bits (dword mask : Z) : Z := u32 (Z.lor dword (u32 mask)).

Section Scan.

Context {defs : pci_defs} {bdefs : bus_defs} {hwc : pci_hw}.

(** What configuration space answers in state [h]. *)
Definition snapshot (h : hw) : pci_config :=
  {| pci_find_capability := hw_find_capability h;
     pci_read_config32 := hw_read_config32 h;
     pci_read_config16 := hw_read_config16 h |}.

Definition apply_write16 (h : hw) (w : pci_write) : hw :=
  match w with
  | pci_write_config16 dev reg value => hw_write_config16 h dev reg value
  end.

(** [amd8132_pcix_tune_dev] as a visitor: it reads in the state it is
    called in, and its write, if any, changes that state. *)
Definition tune_visit (info : amd8132_bus_info) (dev : device)
  (st : hw * list config_write) : hw * list config_write :=
  let ws := @amd8132_pcix_tune_dev defs (snapshot (fst st)) dev info in
  (fold_left apply_write16 ws (fst st), snd st ++ map cfg_write16 ws).

(** What the tuning may write for the device [d]: nothing, or one 16-bit
    write to [d], which then is of normal header type, of a value that fits
    the register and has no bit of [PCI_X_CMD_DPERR_E] set. *)
Definition device_tuning (d : device) (ws : list config_write) : Prop :=
  ws = []
  \/ exists r v : Z,
      ws = [cfg_write16 (pci_write_config16 d r v)]
      /\ hdr_type d = PCI_HEADER_TYPE_NORMAL
      /\ Z.land v PCI_X_CMD_DPERR_E = 0
      /\ bits_below 16 v.

(** What [amd8132_scan_bus] has in [info] when the counting walk is done. *)
Definition scanned_info (h : hw) (b : bus) : amd8132_bus_info :=
  let rev := u8 (hw_read_config8 h (bus_dev b) PCI_CLASS_REVISION) in
  let pos := u32 (hw_find_capability h (bus_dev b) PCI_CAP_ID_PCIX) in
  let sstatus :=
    u16 (hw_read_config16 h (bus_dev b) (u32 (pos + PCI_X_SEC_STATUS))) in
  amd8132_walk_children amd8132_count_dev (children b)
    {| sstatus := sstatus; rev := rev; master_devices := 0; max_func := 0 |}.

(** [amd8132_scan_bus(bus, min_devfn, max_devfn, max)].  [pci_scan_bus]
    finds the children; the result is the returned [max], and the writes
    are those of the tuning walk. *)
Definition amd8132_scan_bus (b : bus) (min_devfn max_devfn max : Z)
  : cfgM Z :=
  fun h =>
    let '(h1, b1, max1) := hw_scan_bus h b min_devfn max_devfn max in
    let info := scanned_info h1 b1 in
    if PCI_X_SSTATUS_MFREQ (sstatus info) =? PCI_X_SSTATUS_CONVENTIONAL_PCI
    then (u32 max1, h1, [])
    else
      let '(h2, ws) :=
        amd8132_walk_children (tune_visit info) (children b1) (h1, []) in
      (u32 max1, h2, ws).

End Scan.

(** A machine for the examples: every read answers 0, writes are dropped,
    and the scan finds the bus as it is given. *)
Definition sample_bus_defs : bus_defs :=
  {| DEVICE_PATH_PCI := 3;
     PCI_HEADER_TYPE_BRIDGE := 1;
     PCI_FUNC := fun devfn => Z.land devfn 7;
     PCI_CLASS_REVISION := 8;
     PCI_COMMAND := 4;
     PCI_CACHE_LINE_SIZE := 12;
     PCI_X_SEC_STATUS := 2;
     PCI_X_SSTATUS_MFREQ := fun x => Z.land (Z.shiftr x 6) 7;
     PCI_X_SSTATUS_CONVENTIONAL_PCI := 0 |}.

Definition quiet_hw : pci_hw :=
  {| hw := unit;
     hw_find_capability := fun _ _ _ => 0;
     hw_read_config8 := fun _ _ _ => 0;
     hw_read_config16 := fun _ _ _ => 0;
     hw_read_config32 := fun _ _ _ => 0;
     hw_write_config8 := fun h _ _ _ => h;
     hw_write_config16 := fun h _ _ _ => h;
     hw_write_config32 := fun h _ _ _ => h;
     hw_scan_bus := fun h b _ _ max => (h, b, max) |}.

(** A machine in PCI-X mode: the bridge is an A1 (revision 0x01) and reports
    a PCI-X frequency in its secondary status; every device has the
    capability at 0x60, the status 0x03e00000 and the command 0x0001. *)
Definition pcix_mode_hw : pci_hw :=
  {| hw := unit;
     hw_find_capability := fun _ _ _ => 96;
     hw_read_config8 := fun _ _ _ => 1;
     hw_read_config16 := fun _ d _ => if devfn d =? 0 then 64 else 1;
     hw_read_config32 := fun _ _ _ => 65011712;
     hw_write_config8 := fun h _ _ _ => h;
     hw_write_config16 := fun h _ _ _ => h;
     hw_write_config32 := fun h _ _ _ => h;
     hw_scan_bus := fun h b _ _ max => (h, b, max) |}.

(** A bus with a card, a bridge with two cards behind it, and a device off
    the PCI path. *)
Definition sample_bus : bus :=
  {| bus_dev := {| devfn := 0; hdr_type := 1 |};
     children :=
       [ DevNode {| devfn := 8; hdr_type := 0 |} 3 [];
         DevNode {| devfn := 16; hdr_type := 1 |} 3
           [ DevNode {| devfn := 24; hdr_type := 0 |} 3 [];
             DevNode {| devfn := 25; hdr_type := 0 |} 3 [] ];
         DevNode {| devfn := 32; hdr_type := 0 |} 1 [] ] |}.

End Amd8132Bus.

(** ** AMD 8132: initialisation of the bridge and of its IOAPIC *)

Module Amd8132Init.

Import Amd8132 Amd8132Bus.

Section Init.

Context {bdefs : bus_defs} {hwc : pci_hw}.

(** Register 0x40: [dword |= (1<<31); dword |= (1<<7); dword |= (3<<21);] *)
Definition misc_40 (dword : Z) : Z :=
  let dword := set_bits dword (Z.shiftl 1 31) in
  let dword := set_bits dword (Z.shiftl 1 7) in
  set_bits dword (Z.shiftl 3 21).

(** Register 0x48: "EXTARB = 1, COMPAT = 0", then the log, error and
    arbitration bits. *)
Definition misc_48 (dword : Z) : Z :=
  let dword := set_bits dword (Z.shiftl 1 3) in
  let dword := clear_bits dword (Z.shiftl 1 0) in
  let dword := set_bits dword (Z.shiftl 1 15) in
  let dword := set_bits dword (Z.shiftl 1 19) in
  let dword := set_bits dword (Z.shiftl 1 22) in
  let dword := set_bits dword (Z.shiftl 1 23) in
  set_bits dword (Z.shiftl 0x61 24).

(** Register 0x70: "Disable Single-Bit-Error Correction [30] = 0". *)
Definition ecc_70 (dword : Z) : Z := clear_bits dword (Z.shiftl 1 30).

(** Register 0xdc: "TxSlack0 [16:17] = 0, RxHwLookahdEn0 [18] = 1,
    TxSlack1 [24:25] = 0, RxHwLookahdEn1 [26] = 1". *)
Definition link_dc (dword : Z) : Z :=
  let dword := set_bits dword (Z.lor (Z.shiftl 1 1) (Z.shiftl 1 4)) in
  let dword := set_bits dword (Z.lor (Z.shiftl 1 18) (Z.shiftl 1 26)) in
  clear_bits dword (Z.lor (Z.shiftl 3 16) (Z.shiftl 3 24)).

(** [amd8132_pcix_init(dev)] *)
Definition amd8132_pcix_init (dev : device) : cfgM unit :=
  chip_rev <~ read8 dev PCI_CLASS_REVISION ;;
  dword <~ read32 dev PCI_COMMAND ;;
  write32 dev PCI_COMMAND
    (clear_bits (set_bits dword 0x10) (Z.shiftl 1 6)) ;;~
  (if chip_rev =? 0x01 then
     byte <~ read8 dev PCI_CACHE_LINE_SIZE ;;
     if byte =? 0x08 then write8 dev PCI_CACHE_LINE_SIZE 0x10
     else cfg_ret tt
   else cfg_ret tt) ;;~
  dword <~ read32 dev PCI_COMMAND ;;
  write32 dev PCI_COMMAND (set_bits dword (Z.shiftl 1 8)) ;;~
  dword <~ read32 dev 0x3c ;;
  write32 dev 0x3c (set_bits dword (Z.shiftl 3 16)) ;;~
  dword <~ read32 dev 0x40 ;;
  write32 dev 0x40 (misc_40 dword) ;;~
  dword <~ read32 dev 0x48 ;;
  write32 dev 0x48 (misc_48 dword) ;;~
  dword <~ read32 dev 0x4c ;;
  write32 dev 0x4c
    (set_bits (set_bits dword (Z.shiftl 1 6)) (Z.shiftl 1 9)) ;;~
  dword <~ read32 dev 0x70 ;;
  write32 dev 0x70 (ecc_70 dword) ;;~
  dword <~ read32 dev 0xd4 ;;
  write32 dev 0xd4 (set_bits dword (Z.shiftl 0x5c 16)) ;;~
  dword <~ read32 dev 0xdc ;;
  write32 dev 0xdc (link_dc dword) ;;~
  dword <~ read32 dev 0xc0 ;;
  if negb (dword =? 0) then
    if chip_rev =? 0x11 then
      dword <~ read32 dev 0xf0 ;;
      write32 dev 0xf0 (set_bits dword 0x00040008)
    else cfg_ret tt
  else cfg_ret tt.

(** The value [ioapic_enable] computes from the one it read. *)
Definition ioapic_44 (enabled value : Z) : Z :=
  if negb (enabled =? 0) then
    set_bits value (Z.lor (Z.shiftl 1 1) (Z.shiftl 1 0))
  else
    clear_bits value (Z.lor (Z.shiftl 1 1) (Z.shiftl 1 0)).

(** [ioapic_enable(dev)]; [enabled] is [dev->enabled]. *)
Definition ioapic_enable (dev : device) (enabled : Z) : cfgM unit :=
  value <~ read32 dev 0x44 ;;
  write32 dev 0x44 (ioapic_44 enabled value).

(** Errata #74: [dword &= ~(0x3<<30); dword |= (0x01<<30);] *)
Definition errata74 (dword : Z) : Z :=
  set_bits (clear_bits dword (Z.shiftl 0x3 30)) (Z.shiftl 0x01 30).

(** [amd8132_ioapic_init(dev)] *)
Definition amd8132_ioapic_init (dev : device) : cfgM unit :=
  chip_rev <~ read8 dev PCI_CLASS_REVISION ;;
  if (chip_rev =? 0x11) || (chip_rev =? 0x12) then
    dword <~ read32 dev 0x80 ;;
    write32 dev 0x80 (set_bits dword (Z.shiftl 0x1f 5)) ;;~
    dword <~ read32 dev 0x88 ;;
    write32 dev 0x88 (set_bits dword (Z.shiftl 0x1f 5)) ;;~
    dword <~ read32 dev 0x7c ;;
    write32 dev 0x7c (errata74 dword)
  else cfg_ret tt.

End Init.

(** What the initialisation promises about the values it writes to the
    device-specific registers, by register. *)
Definition forced_bits (reg value : Z) : Prop :=
  (reg = 0x40 ->
   Z.testbit value 31 = true /\ Z.testbit value 7 = true
   /\ Z.testbit value 21 = true /\ Z.testbit value 22 = true)
  /\ (reg = 0x48 -> Z.testbit value 3 = true /\ Z.testbit value 0 = false)
  /\ (reg = 0x70 -> Z.testbit value 30 = false)
  /\ (reg = 0xdc ->
      Z.testbit value 18 = true /\ Z.testbit value 26 = true
      /\ Z.testbit value 16 = false /\ Z.testbit value 17 = false
      /\ Z.testbit value 24 = false /\ Z.testbit value 25 = false).

(** The kinds of write the bridge initialisation makes: 32-bit writes, and
    the 8-bit write of 0x10 to the cache line size register. *)
Definition init_write_kind {bdefs : bus_defs} (w : config_write) : Prop :=
  match w with
  | cfg_write8 _ reg value => reg = PCI_CACHE_LINE_SIZE /\ value = 0x10
  | cfg_write16 _ => False
  | cfg_write32 _ _ _ => True
  end.

(** What the IOAPIC initialisation promises about the values it writes:
    Errata #73 sets bits 5 to 9 of 0x80 and 0x88, Errata #74 makes bits
    31:30 of 0x7c equal to 01. *)
Definition ioapic_forced_bits (reg value : Z) : Prop :=
  (reg = 0x80 \/ reg = 0x88 ->
   Z.testbit value 5 = true /\ Z.testbit value 6 = true
   /\ Z.testbit value 7 = true /\ Z.testbit value 8 = true
   /\ Z.testbit value 9 = true)
  /\ (reg = 0x7c ->
      Z.testbit value 30 = true /\ Z.testbit value 31 = false).

(** Membership of a bit position in a list of positions. *)
Definition bit_in (n : Z) (l : list Z) : bool := existsb (Z.eqb n) l.

(** The bit positions of a [u32]. *)
Definition u32_positions : list Z :=
  Eval vm_compute in map Z.of_nat (seq 0 32).

(** [v] is the 32-bit value [x] with the bits of [sets] set, the bits of
    [clears] cleared and every other bit kept. *)
Definition bit_update (sets clears : list Z) (x v : Z) : Prop :=
  forall n : Z,
    Z.testbit v n =
      (n <? 32) && (bit_in n sets || negb (bit_in n clears) && Z.testbit x n).

(** What the bridge initialisation makes of the value [x] it read from
    [reg], for the four registers whose bits its comments name. *)
Definition rmw_value (reg x v : Z) : Prop :=
  (reg = 0x40 -> bit_update [7; 21; 22; 31] [] x v)
  /\ (reg = 0x48 -> bit_update [3; 15; 19; 22; 23; 24; 29; 30] [0] x v)
  /\ (reg = 0x70 -> bit_update [] [30] x v)
  /\ (reg = 0xdc -> bit_update [1; 4; 18; 26] [16; 17; 24; 25] x v).

Section Replay.

Context {hwc : pci_hw}.

(** The machine after a configuration write. *)
Definition apply_write (h : hw) (w : config_write) : hw :=
  match w with
  | cfg_write8 dev reg value => hw_write_config8 h dev reg value
  | cfg_write16 (pci_write_config16 dev reg value) =>
      hw_write_config16 h dev reg value
  | cfg_write32 dev reg value => hw_write_config32 h dev reg value
  end.

(** The machine after a sequence of writes. *)
Definition replay (h : hw) (ws : list config_write) : hw :=
  fold_left apply_write ws h.

(** A 32-bit write made in state [h] carries the value its register
    answers in [h], changed as [rmw_value] says. *)
Definition read_modify_write (h : hw) (w : config_write) : Prop :=
  match w with
  | cfg_write32 dev reg value =>
      rmw_value reg (u32 (hw_read_config32 h dev reg)) value
  | _ => True
  end.

(** Each write of a sequence that starts in state [h] is such a write in
    the state the writes before it have led to. *)
Fixpoint writes_follow_reads (h : hw) (ws : list config_write) : Prop :=
  match ws with
  | [] => True
  | w :: rest =>
      read_modify_write h w /\ writes_follow_reads (apply_write h w) rest
  end.

(** Run from [h], the computation [m] changes the machine by its writes
    only, and its writes follow the reads. *)
Definition faithful_at {A : Type} (m : cfgM A) (h : hw) : Prop :=
  state_of m h = replay h (writes_of m h)
  /\ writes_follow_reads h (writes_of m h).

End Replay.

End Amd8132Init.

(** ** AMD 8132: the fields of the PCI-X command register *)

Module Amd8132Fields.

Import Amd8132.

(** The field layout of the PCI-X capability: the masks whose positions are
    the shift counts of the tuning code ([>> 21], [>> 23], [<< 2], [<< 4]).
    The header that defines them is not part of the sources, so a statement
    that needs the values says so with this hypothesis. *)
Definition standard_pcix_fields (defs : pci_defs) : Prop :=
  PCI_X_CMD_DPERR_E = 0x0001
  /\ PCI_X_CMD_MAX_READ = 0x000c
  /\ PCI_X_CMD_MAX_SPLIT = 0x0070
  /\ PCI_X_STATUS_MAX_READ = 0x00600000
  /\ PCI_X_STATUS_MAX_SPLIT = 0x03800000.

(** Position [n] lies in the field of [w] bits that starts at bit [s]. *)
Definition in_field (s w n : Z) : bool := (s <=? n) && (n <? s + w).

(** The mask of that field. *)
Definition field_mask (s w : Z) : Z := Z.shiftl (Z.ones w) s.

(** [if (field != ((cmd & mask) >> s)) { cmd &= ~mask; cmd |= field << s; }]
    for the mask of the field at [s] of width [w]. *)
Definition field_update (s w field cmd : Z) : Z :=
  if negb (field =? Z.shiftr (Z.land cmd (u32 (field_mask s w))) s) then
    u32 (Z.lor (clear_bits cmd (field_mask s w)) (u32 (Z.shiftl field s)))
  else cmd.

(** Configuration space as [cfg] has it, but with every 16-bit read
    answering [value]: the command register after it was written. *)
Definition command_reads (cfg : pci_config) (value : Z) : pci_config :=
  {| pci_find_capability := @pci_find_capability cfg;
     pci_read_config32 := @pci_read_config32 cfg;
     pci_read_config16 := fun _ _ => value |}.

End Amd8132Fields.

(** ** Supermicro X12SPW: the DQ and DQS maps of spd/spd_util.c *)

Module X12spwSpd.

(** [memcpy(dest, src, n)] for [n] bytes of [src] into a buffer [dest]
    that has room for them: the first [n] bytes of [dest] are replaced. *)
Definition memcpy (dest src : list Z) (n : nat) : list Z :=
  firstn n src ++ skipn n dest.

(** [sizeof] of an array of [u8]. *)
Definition sizeof (table : list Z) : nat := List.length table.

(** [mainboard_fill_dq_map_ch0(dq_map_ptr)] *)
Definition mainboard_fill_dq_map_ch0 (dq_map_ptr : list Z) : list Z :=
  let dq_map :=
    [0x0F; 0xF0; 0x0F; 0xF0; 0xFF; 0x00;
     0x00; 0x00; 0x00; 0x00; 0x00; 0x00] in
  memcpy dq_map_ptr dq_map (sizeof dq_map).

(** [mainboard_fill_dq_map_ch1(dq_map_ptr)] *)
Definition mainboard_fill_dq_map_ch1 (dq_map_ptr : list Z) : list Z :=
  let dq_map :=
    [0x0F; 0xF0; 0x0F; 0xF0; 0xFF; 0x00;
     0x00; 0x00; 0x00; 0x00; 0x00; 0x00] in
  memcpy dq_map_ptr dq_map (sizeof dq_map).

(** [mainboard_fill_dqs_map_ch0(dqs_map_ptr)] *)
Definition mainboard_fill_dqs_map_ch0 (dqs_map_ptr : list Z) : list Z :=
  let dqs_map_u_ddr := [2; 0; 1; 3; 6; 4; 7; 5] in
  memcpy dqs_map_ptr dqs_map_u_ddr (sizeof dqs_map_u_ddr).

(** [mainboard_fill_dqs_map_ch1(dqs_map_ptr)] *)
Definition mainboard_fill_dqs_map_ch1 (dqs_map_ptr : list Z) : list Z :=
  let dqs_map_u_ddr := [1; 3; 2; 0; 5; 7; 6; 4] in
  memcpy dqs_map_ptr dqs_map_u_ddr (sizeof dqs_map_u_ddr).

End X12spwSpd.

(** ** Properties *)

Import ProgramLoading.

(** C7: [prog_set_entry p e a] stores [e] and [a] in [entry] and [arg] for
    any values whatsoever, [prog_set_arg p a] stores [a] in [arg]; [type],
    [cbfs_type], [name] and [rdev] (and, for [prog_set_arg], [entry]) keep
    their values, and the accessors read the stored values back. *)
Theorem prog_set_entry_frame :
  forall (p : prog) (e a : Z),
    prog_set_entry p e a =
      {| type := type p; cbfs_type := cbfs_type p; name := name p;
         rdev := rdev p; entry := e; arg := a |}
    /\ prog_entry (prog_set_entry p e a) = e
    /\ prog_entry_arg (prog_set_entry p e a) = a
    /\ prog_set_arg p a =
      {| type := type p; cbfs_type := cbfs_type p; name := name p;
         rdev := rdev p; entry := entry p; arg := a |}
    /\ prog_entry_arg (prog_set_arg p a) = a
    /\ prog_entry (prog_set_arg p a) = prog_entry p.
Proof.
  intros p e a. repeat split.
Qed.

(** *** The trace monad *)

Lemma value_of_bind :
  forall (A B : Type) (m : traced A) (k : A -> traced B),
    value_of (bind m k) = value_of (k (value_of m)).
Proof.
  intros A B [a t1] k. unfold bind, value_of. simpl.
  destruct (k a) as [b t2]. reflexivity.
Qed.

Lemma trace_of_bind :
  forall (A B : Type) (m : traced A) (k : A -> traced B),
    trace_of (bind m k) = trace_of m ++ trace_of (k (value_of m)).
Proof.
  intros A B [a t1] k. unfold bind, trace_of, value_of. simpl.
  destruct (k a) as [b t2]. reflexivity.
Qed.

(** *** Locator *)


(** When no loader is active the descriptor comes back as it was, whatever
    the loaders would do. *)
Lemma try_loaders_none_active :
  forall (ls : list prog_loader_ops) (p : prog),
    fst (value_of (try_loaders ls p)) = LocateFailed NoActiveLoader ->
    snd (value_of (try_loaders ls p)) = p.
Proof.
  induction ls as [| ops rest IH]; intros p Hres.
  - reflexivity.
  - revert Hres. cbn [try_loaders]. rewrite value_of_bind.
    cbn [call ret bind value_of fst].
    destruct (0 <? is_loader_active ops p).
    + destruct (fst (locate ops p) =? 0); cbn; discriminate.
    + apply IH.
Qed.

(** [try_loaders] only ever replaces the backing region. *)
Lemma try_loaders_keeps_type :
  forall (ls : list prog_loader_ops) (p : prog),
    type (snd (value_of (try_loaders ls p))) = type p.
Proof.
  induction ls as [| ops rest IH]; intro p.
  - reflexivity.
  - cbn [try_loaders]. rewrite value_of_bind. cbn [call ret bind value_of fst].
    destruct (0 <? is_loader_active ops p).
    + destruct (fst (locate ops p) =? 0); reflexivity.
    + apply IH.
Qed.

Lemma prog_locate_denied_eq :
  forall (hook : prog -> Z) (loaders : list prog_loader_ops) (p : prog),
    hook p <> 0 ->
    prog_locate hook loaders p =
      ((LocateFailed PolicyDenied, p), [ev_prog_locate_hook p]).
Proof.
  intros hook loaders p Hdeny. unfold prog_locate. cbn [call ret bind].
  apply Z.eqb_neq in Hdeny. rewrite Hdeny. reflexivity.
Qed.

Lemma prog_locate_allowed_value :
  forall (hook : prog -> Z) (loaders : list prog_loader_ops) (p : prog),
    hook p = 0 ->
    value_of (prog_locate hook loaders p) = value_of (try_loaders loaders p).
Proof.
  intros hook loaders p Hallow. unfold prog_locate.
  rewrite value_of_bind. cbn [call ret bind value_of fst].
  rewrite Hallow. reflexivity.
Qed.

(** C1: when the policy hook answers with a non-zero value, [prog_locate]
    fails with the policy-denied error (a negative return value), the
    descriptor is handed back untouched, the only call made is the one to the
    hook, and so no loader's [locate] operation is invoked. *)
Theorem prog_locate_policy_denied :
  forall (hook : prog -> Z) (loaders : list prog_loader_ops) (p : prog),
    hook p <> 0 ->
    prog_locate hook loaders p =
      ((LocateFailed PolicyDenied, p), [ev_prog_locate_hook p])
    /\ locate_rc (fst (value_of (prog_locate hook loaders p))) < 0
    /\ locate_calls (trace_of (prog_locate hook loaders p)) = 0%nat.
Proof.
  intros hook loaders p Hdeny.
  rewrite (prog_locate_denied_eq hook loaders p Hdeny).
  repeat split.
Qed.

Lemma prog_locate_policy_denied_witness :
  deny_verstage (PROG_INIT PROG_VERSTAGE "verstage") <> 0
  /\ prog_locate deny_verstage [loader_A; loader_B]
       (PROG_INIT PROG_VERSTAGE "verstage") =
     ((LocateFailed PolicyDenied, PROG_INIT PROG_VERSTAGE "verstage"),
      [ev_prog_locate_hook (PROG_INIT PROG_VERSTAGE "verstage")]).
Proof.
  split.
  - vm_compute. discriminate.
  - apply (prog_locate_policy_denied deny_verstage [loader_A; loader_B]
             (PROG_INIT PROG_VERSTAGE "verstage")).
    vm_compute. discriminate.
Defined.





(** A failure that is not the active loader's (the policy denied, or no
    loader was active) leaves the whole descriptor as it was, whatever the
    loaders would have done. *)
Lemma prog_locate_early_failure_keeps_prog :
  forall (hook : prog -> Z) (loaders : list prog_loader_ops) (p : prog),
    fst (value_of (prog_locate hook loaders p)) = LocateFailed PolicyDenied
    \/ fst (value_of (prog_locate hook loaders p))
       = LocateFailed NoActiveLoader ->
    snd (value_of (prog_locate hook loaders p)) = p.
Proof.
  intros hook loaders p Hres.
  destruct (Z.eq_dec (hook p) 0) as [Hallow | Hdeny].
  - rewrite (prog_locate_allowed_value hook loaders p Hallow) in *.
    destruct Hres as [Hden | Hnone].
    + exfalso. revert Hden. clear.
      induction loaders as [| ops rest IH].
      * discriminate.
      * cbn [try_loaders]. rewrite value_of_bind.
        cbn [call ret bind value_of fst].
        destruct (0 <? is_loader_active ops p).
        -- destruct (fst (locate ops p) =? 0); cbn; discriminate.
        -- exact IH.
    + apply try_loaders_none_active. exact Hnone.
  - rewrite (prog_locate_denied_eq hook loaders p Hdeny). reflexivity.
Qed.

(** The scenario of the spec: A inactive, B active and successful. *)
Example prog_locate_second_loader :
  prog_locate deny_verstage [loader_A; loader_B] (PROG_INIT PROG_PAYLOAD "p") =
    ((LocateOk,
      set_rdev (PROG_INIT PROG_PAYLOAD "p")
        (rdev_span (boot_medium "B") 4096 512)),
     [ev_prog_locate_hook (PROG_INIT PROG_PAYLOAD "p");
      ev_is_loader_active "A" (PROG_INIT PROG_PAYLOAD "p");
      ev_is_loader_active "B" (PROG_INIT PROG_PAYLOAD "p");
      ev_locate "B" (PROG_INIT PROG_PAYLOAD "p")]).
Proof. reflexivity. Qed.

(** *** Segment-load dispatch *)

Lemma prog_segment_loaded_eq :
  forall (start size flags : Z),
    prog_segment_loaded start size flags =
      (tt, [ev_platform_segment_loaded start size flags;
            ev_arch_segment_loaded start size flags]).
Proof. reflexivity. Qed.

Lemma load_segments_last :
  forall (s : segment),
    trace_of (load_segments [s]) = dispatch s SEG_FINAL.
Proof. reflexivity. Qed.

Lemma load_segments_more :
  forall (s : segment) (rest : list segment),
    rest <> [] ->
    trace_of (load_segments (s :: rest)) =
      dispatch s 0 ++ trace_of (load_segments rest).
Proof.
  intros s rest Hrest. destruct rest as [| s' rest'].
  - contradiction.
  - cbn [load_segments]. rewrite trace_of_bind. reflexivity.
Qed.

Lemma load_segments_trace :
  forall (pre : list segment) (s : segment),
    trace_of (load_segments (pre ++ [s])) =
      flat_map (fun s' => dispatch s' 0) pre ++ dispatch s SEG_FINAL.
Proof.
  induction pre as [| a pre IH]; intro s.
  - apply load_segments_last.
  - rewrite <- app_comm_cons, load_segments_more.
    + rewrite IH. cbn [flat_map]. rewrite <- app_assoc. reflexivity.
    + destruct pre; discriminate.
Qed.

Lemma final_segments_app :
  forall (t1 t2 : list event),
    final_segments (t1 ++ t2) = (final_segments t1 + final_segments t2)%nat.
Proof.
  intros t1 t2. unfold final_segments.
  rewrite filter_app, length_app. reflexivity.
Qed.

Lemma final_segments_unflagged :
  forall (pre : list segment),
    final_segments (flat_map (fun s' => dispatch s' 0) pre) = 0%nat.
Proof.
  induction pre as [| a pre IH].
  - reflexivity.
  - cbn [flat_map]. rewrite final_segments_app, IH. reflexivity.
Qed.

(** C2: [prog_segment_loaded] calls [platform_segment_loaded] and then
    [arch_segment_loaded] with the start, size and flags it was given; a load
    of the segments [pre ++ [s]] (any number of segments followed by the last
    one) reports them in order, the segments of [pre] without [SEG_FINAL] and
    [s] with it, so that exactly one segment, the last, carries the flag. *)
Theorem load_segments_dispatch :
  forall (pre : list segment) (s : segment),
    (forall start size flags : Z,
        trace_of (prog_segment_loaded start size flags) =
          [ev_platform_segment_loaded start size flags;
           ev_arch_segment_loaded start size flags])
    /\ trace_of (load_segments (pre ++ [s])) =
         flat_map (fun s' => dispatch s' 0) pre ++ dispatch s SEG_FINAL
    /\ final_segments (trace_of (load_segments (pre ++ [s]))) = 1%nat
    /\ Z.land 0 SEG_FINAL = 0
    /\ Z.land SEG_FINAL SEG_FINAL <> 0.
Proof.
  intros pre s. split; [| split; [| split; [| split]]].
  - intros. reflexivity.
  - apply load_segments_trace.
  - rewrite load_segments_trace, final_segments_app,
      final_segments_unflagged. reflexivity.
  - reflexivity.
  - discriminate.
Qed.

(** The scenario of the spec: three segments of sizes 10, 20 and 5. *)
Example load_three_segments :
  trace_of (load_segments three_segments) =
    [ev_platform_segment_loaded 4096 10 0; ev_arch_segment_loaded 4096 10 0;
     ev_platform_segment_loaded 8192 20 0; ev_arch_segment_loaded 8192 20 0;
     ev_platform_segment_loaded 12288 5 1; ev_arch_segment_loaded 12288 5 1].
Proof. reflexivity. Qed.

(** *** Descriptor fields *)

Lemma apply_op_keeps_type :
  forall (hook : prog -> Z) (loaders : list prog_loader_ops)
         (op : prog_op) (p : prog),
    type (value_of (apply_op hook loaders op p)) = type p.
Proof.
  intros hook loaders op p. destruct op; try reflexivity.
  - cbn [apply_op]. rewrite value_of_bind. cbn [ret value_of fst].
    destruct (Z.eq_dec (hook p) 0) as [Hallow | Hdeny].
    + change (fst (prog_locate hook loaders p))
        with (value_of (prog_locate hook loaders p)).
      rewrite (prog_locate_allowed_value hook loaders p Hallow).
      apply try_loaders_keeps_type.
    + rewrite (prog_locate_denied_eq hook loaders p Hdeny). reflexivity.
  - cbn [apply_op]. rewrite value_of_bind. cbn [ret value_of fst].
    unfold prog_run. destruct (entry p =? 0); reflexivity.
Qed.

Lemma apply_ops_keeps_type :
  forall (hook : prog -> Z) (loaders : list prog_loader_ops)
         (ops : list prog_op) (p : prog),
    type (value_of (apply_ops hook loaders ops p)) = type p.
Proof.
  intros hook loaders ops. induction ops as [| op rest IH]; intro p.
  - reflexivity.
  - cbn [apply_ops]. rewrite value_of_bind, IH. apply apply_op_keeps_type.
Qed.

(** C3: starting from [PROG_INIT t n], after any sequence of
    [prog_set_area], [prog_memory_init], [prog_set_entry], [prog_set_arg],
    [prog_locate] and [prog_run], with any policy hook and any loaders,
    [prog_type] still returns [t]. *)
Theorem prog_type_immutable :
  forall (hook : prog -> Z) (loaders : list prog_loader_ops)
         (t : enum_prog_type) (n : string) (ops : list prog_op),
    prog_type (value_of (apply_ops hook loaders ops (PROG_INIT t n))) = t.
Proof.
  intros hook loaders t n ops. unfold prog_type.
  rewrite apply_ops_keeps_type. reflexivity.
Qed.

Example prog_type_after_lifecycle :
  value_of (apply_ops deny_verstage [loader_A; loader_B]
              [op_locate; op_set_area 1048576 4096; op_set_entry 1048592 7;
               op_set_arg 9; op_run]
              (PROG_INIT PROG_RAMSTAGE "fallback/ramstage")) =
    {| type := PROG_RAMSTAGE; cbfs_type := 0; name := "fallback/ramstage";
       rdev := rdev_span flat_32bit 1048576 4096;
       entry := 1048592; arg := 9 |}.
Proof. reflexivity. Qed.

(** C5: [prog_set_area p start size] makes [rdev] the span of [size] bytes at
    [start] of the 32-bit flat address space, whatever [rdev] was before, and
    leaves [type], [cbfs_type], [name], [entry] and [arg] as they were. *)
Theorem prog_set_area_binds :
  forall (p : prog) (start size : Z),
    prog_set_area p start size =
      {| type := type p; cbfs_type := cbfs_type p; name := name p;
         rdev := rdev_span flat_32bit start size;
         entry := entry p; arg := arg p |}
    /\ (forall previous : region_device,
           prog_set_area (set_rdev p previous) start size =
             prog_set_area p start size).
Proof.
  intros p start size. split; [| intro previous]; reflexivity.
Qed.



(** A loaded payload is dispatched: platform hook first. *)
Example prog_run_loaded_payload :
  prog_run (prog_set_entry (PROG_INIT PROG_PAYLOAD "p") 1048592 0) =
    ((RunDispatched, prog_set_entry (PROG_INIT PROG_PAYLOAD "p") 1048592 0),
     [ev_platform_prog_run
        (prog_set_entry (PROG_INIT PROG_PAYLOAD "p") 1048592 0);
      ev_arch_prog_run
        (prog_set_entry (PROG_INIT PROG_PAYLOAD "p") 1048592 0)]).
Proof. reflexivity. Qed.

(** ** AMD 8132: PCI-X tuning *)

Import Amd8132.

(** When the count of master devices is an [int] above [INT_MIN], the
    number of siblings is one less than it. *)
Lemma sibs_of_count :
  forall (info : amd8132_bus_info),
    - 2 ^ 31 < master_devices info < 2 ^ 31 ->
    sibs_of info = master_devices info - 1.
Proof.
  intros info Hrange. unfold sibs_of, s32.
  rewrite Z.mod_small; lia.
Qed.

(** The errata block as a minimum, in the terms of the code. *)
Lemma errata53_as_min :
  forall (defs : pci_defs) (info : amd8132_bus_info) (status : Z),
    tuned_max_tran info status =
      if rev info =? 1
      then Z.min (status_max_tran status) (split_limit (sibs_of info))
      else status_max_tran status.
Proof.
  intros defs info status. unfold tuned_max_tran, errata53, split_limit.
  destruct (rev info =? 1); [| reflexivity].
  destruct (2 <=? sibs_of info).
  - destruct (Z.ltb_spec 1 (status_max_tran status)); lia.
  - destruct (sibs_of info =? 1).
    + destruct (Z.ltb_spec 3 (status_max_tran status)); lia.
    + destruct (Z.ltb_spec 4 (status_max_tran status)); lia.
Qed.

(** C8: let [v] be the split-transaction field of what the device's PCI-X
    status register answers, [(status & PCI_X_STATUS_MAX_SPLIT) >> 23] with
    [status] read at [cap + PCI_X_STATUS].  For a count of master devices
    that [info->master_devices - 1] can be computed from, [max_tran] after
    the errata block is, on revision 0x01, the smaller of [v] and the limit
    [L], where [L] is 1 with 3 or more master devices ([sibs >= 2]), 3 with
    exactly 2 ([sibs == 1]) and 4 otherwise; on every other revision it is
    [v]. *)
Theorem tuned_max_tran_clamp :
  forall (defs : pci_defs) (cfg : pci_config)
         (dev : device) (info : amd8132_bus_info),
    - 2 ^ 31 < master_devices info < 2 ^ 31 ->
    tuned_max_tran info (pcix_status dev) =
      (if rev info =? 1
       then Z.min
              (Z.shiftr
                 (Z.land
                    (u32 (pci_read_config32 dev
                            (u32 (u32 (pci_find_capability dev PCI_CAP_ID_PCIX)
                                  + PCI_X_STATUS))))
                    (u32 PCI_X_STATUS_MAX_SPLIT)) 23)
              (if 3 <=? master_devices info then 1
               else if master_devices info =? 2 then 3 else 4)
       else Z.shiftr
              (Z.land
                 (u32 (pci_read_config32 dev
                         (u32 (u32 (pci_find_capability dev PCI_CAP_ID_PCIX)
                               + PCI_X_STATUS))))
                 (u32 PCI_X_STATUS_MAX_SPLIT)) 23)
    /\ (if 3 <=? master_devices info then 1
        else if master_devices info =? 2 then 3 else 4) =
       (if 2 <=? master_devices info - 1 then 1
        else if master_devices info - 1 =? 1 then 3 else 4).
Proof.
  intros defs cfg dev info Hrange.
  assert (Hlimit :
            (if 3 <=? master_devices info then 1
             else if master_devices info =? 2 then 3 else 4) =
            (if 2 <=? master_devices info - 1 then 1
             else if master_devices info - 1 =? 1 then 3 else 4)).
  { destruct (Z.leb_spec 3 (master_devices info)),
      (Z.leb_spec 2 (master_devices info - 1)),
      (Z.eqb_spec (master_devices info) 2),
      (Z.eqb_spec (master_devices info - 1) 1); lia. }
  split; [| exact Hlimit].
  rewrite errata53_as_min, Hlimit. unfold split_limit.
  rewrite (sibs_of_count info Hrange). reflexivity.
Qed.

Lemma tuned_max_tran_clamp_witness :
  @tuned_max_tran pcix_layout (sample_info 1 3)
    (@pcix_status pcix_layout sample_config sample_device) = Z.min 7 1
  /\ 1 = 1.
Proof.
  apply (tuned_max_tran_clamp pcix_layout sample_config sample_device
           (sample_info 1 3)).
  cbn. lia.
Defined.

(** Three master devices on an A1 bridge: a device that allows 8 split
    transactions (field value 7) is limited to field value 1; on a B1 bridge
    it keeps 7. *)
Example tuned_max_tran_three_masters :
  @tuned_max_tran pcix_layout (sample_info 1 3) 65011712 = 1
  /\ @tuned_max_tran pcix_layout (sample_info 1 2) 65011712 = 3
  /\ @tuned_max_tran pcix_layout (sample_info 1 1) 65011712 = 4
  /\ @tuned_max_tran pcix_layout (sample_info 17 3) 65011712 = 7.
Proof. repeat split. Qed.

(** Clearing the bits of [mask] leaves none of them set, also after the
    value is cut to a narrower width. *)
Lemma cleared_bits_stay_clear :
  forall (x mask j k : Z),
    0 <= j -> 0 <= k ->
    Z.land (((Z.land x (Z.lnot mask)) mod 2 ^ j) mod 2 ^ k) mask = 0.
Proof.
  intros x mask j k Hj Hk. apply Z.bits_inj'. intros n Hn.
  rewrite Z.land_spec, Z.bits_0.
  destruct (Z.lt_ge_cases n k) as [Hlow | Hhigh].
  - rewrite Z.mod_pow2_bits_low by lia.
    destruct (Z.lt_ge_cases n j) as [Hlow' | Hhigh'].
    + rewrite Z.mod_pow2_bits_low by lia.
      rewrite Z.land_spec, Z.lnot_spec by lia.
      destruct (Z.testbit x n), (Z.testbit mask n); reflexivity.
    + rewrite Z.mod_pow2_bits_high by lia. reflexivity.
  - rewrite Z.mod_pow2_bits_high by lia. reflexivity.
Qed.

Lemma tuned_cmd_no_dperr :
  forall (defs : pci_defs) (info : amd8132_bus_info) (status orig_cmd : Z),
    Z.land (u16 (tuned_cmd info status orig_cmd)) PCI_X_CMD_DPERR_E = 0.
Proof.
  intros defs info status orig_cmd.
  unfold tuned_cmd, clear_bits, u16, u32.
  apply cleared_bits_stay_clear; lia.
Qed.

(** Widths of the values the function computes. *)

Lemma bits_below_small :
  forall (k x : Z), 0 <= k -> 0 <= x < 2 ^ k -> bits_below k x.
Proof.
  intros k x Hk Hx n Hn. rewrite <- (Z.mod_small x (2 ^ k)) by exact Hx.
  apply Z.mod_pow2_bits_high. lia.
Qed.

Lemma bits_below_mono :
  forall (k k' x : Z), k <= k' -> bits_below k x -> bits_below k' x.
Proof.
  intros k k' x Hk Hx n Hn. apply Hx. lia.
Qed.

Lemma bits_below_mod :
  forall (k j x : Z), 0 <= j -> bits_below k x -> bits_below k (x mod 2 ^ j).
Proof.
  intros k j x Hj Hx n Hn. rewrite Z.testbit_mod_pow2 by exact Hj.
  rewrite (Hx n Hn). apply andb_false_r.
Qed.

Lemma bits_below_mod_width :
  forall (k x : Z), 0 <= k -> bits_below k (x mod 2 ^ k).
Proof.
  intros k x Hk n Hn. apply Z.mod_pow2_bits_high. lia.
Qed.

Lemma bits_below_land :
  forall (k x y : Z), bits_below k x -> bits_below k (Z.land x y).
Proof.
  intros k x y Hx n Hn. rewrite Z.land_spec, (Hx n Hn). reflexivity.
Qed.

Lemma bits_below_lor :
  forall (k x y : Z),
    bits_below k x -> bits_below k y -> bits_below k (Z.lor x y).
Proof.
  intros k x y Hx Hy n Hn. rewrite Z.lor_spec, (Hx n Hn), (Hy n Hn).
  reflexivity.
Qed.

Lemma bits_below_shiftr :
  forall (k s x : Z),
    0 <= s <= k -> bits_below k x -> bits_below (k - s) (Z.shiftr x s).
Proof.
  intros k s x Hs Hx n Hn. rewrite Z.shiftr_spec by lia. apply Hx. lia.
Qed.

Lemma bits_below_shiftl :
  forall (k s x : Z),
    0 <= s -> 0 <= k -> bits_below k x -> bits_below (k + s) (Z.shiftl x s).
Proof.
  intros k s x Hs Hk Hx n Hn. rewrite Z.shiftl_spec by lia. apply Hx. lia.
Qed.

Lemma bits_below_u16 :
  forall (x : Z), bits_below 16 x -> u16 x = x.
Proof.
  intros x Hx. unfold u16. apply Z.bits_inj'. intros n Hn.
  rewrite Z.testbit_mod_pow2 by lia.
  destruct (Z.ltb_spec n 16) as [Hlow | Hhigh].
  - reflexivity.
  - rewrite (Hx n Hhigh). reflexivity.
Qed.

Lemma errata53_width :
  forall (info : amd8132_bus_info) (max_tran : Z),
    bits_below 9 max_tran -> bits_below 9 (errata53 info max_tran).
Proof.
  intros info max_tran Hm. unfold errata53.
  assert (Hconst : forall c : Z, 0 <= c < 2 ^ 9 -> bits_below 9 c)
    by (intros c Hc; apply bits_below_small; lia).
  destruct (rev info =? 1); [| exact Hm].
  destruct (2 <=? sibs_of info); [| destruct (sibs_of info =? 1)];
    match goal with
    | |- bits_below 9 (if ?b then _ else _) => destruct b
    end; try exact Hm; apply Hconst; lia.
Qed.

Lemma clear_bits_width :
  forall (k cmd mask : Z), bits_below k cmd -> bits_below k (clear_bits cmd mask).
Proof.
  intros k cmd mask Hc. unfold clear_bits, u32.
  apply bits_below_mod; [lia |]. apply bits_below_land. exact Hc.
Qed.

Lemma update_width :
  forall (cmd field mask s : Z),
    0 <= s -> s + 11 <= 16 ->
    bits_below 16 cmd -> bits_below 11 field ->
    bits_below 16
      (u32 (Z.lor (clear_bits cmd mask) (u32 (Z.shiftl field s)))).
Proof.
  intros cmd field mask s Hs Hfit Hc Hf. unfold u32 at 1.
  apply bits_below_mod; [lia |]. apply bits_below_lor.
  - apply clear_bits_width. exact Hc.
  - unfold u32. apply bits_below_mod; [lia |].
    apply (bits_below_mono (11 + s)); [lia |].
    apply bits_below_shiftl; [lia | lia | exact Hf].
Qed.

(** The computed command value fits the 16-bit register it is written to. *)
Lemma tuned_cmd_width :
  forall (defs : pci_defs) (info : amd8132_bus_info) (status orig_cmd : Z),
    bits_below 32 status -> bits_below 16 orig_cmd ->
    bits_below 16 (tuned_cmd info status orig_cmd).
Proof.
  intros defs info status orig_cmd Hs Ho. unfold tuned_cmd.
  assert (Hread : bits_below 11 (status_max_read status)).
  { unfold status_max_read. change 11 with (32 - 21).
    apply bits_below_shiftr; [lia |]. apply bits_below_land. exact Hs. }
  assert (Htran : bits_below 11 (tuned_max_tran info status)).
  { apply (bits_below_mono 9); [lia |]. unfold tuned_max_tran.
    apply errata53_width. unfold status_max_tran. change 9 with (32 - 23).
    apply bits_below_shiftr; [lia |]. apply bits_below_land. exact Hs. }
  apply clear_bits_width.
  assert (Hcmd1 : bits_below 16 (update_max_read (status_max_read status)
                                   orig_cmd)).
  { unfold update_max_read.
    match goal with
    | |- bits_below 16 (if ?b then _ else _) => destruct b
    end; [apply update_width; (lia || assumption) | exact Ho]. }
  unfold update_max_tran.
  match goal with
  | |- bits_below 16 (if ?b then _ else _) => destruct b
  end; [apply update_width; (lia || assumption) | exact Hcmd1].
Qed.

Lemma tuned_cmd_as_read_width :
  forall (defs : pci_defs) (cfg : pci_config)
         (dev : device) (info : amd8132_bus_info),
    u16 (tuned_cmd info (pcix_status dev) (pcix_orig_cmd dev)) =
      tuned_cmd info (pcix_status dev) (pcix_orig_cmd dev).
Proof.
  intros defs cfg dev info. apply bits_below_u16, tuned_cmd_width.
  - unfold pcix_status, u32. apply bits_below_mod_width. lia.
  - unfold pcix_orig_cmd, u16. apply bits_below_mod_width. lia.
Qed.

(** C9: [amd8132_pcix_tune_dev] performs either no configuration write, or
    exactly one, to the PCI-X command register of the device; the value
    written is the computed command value, it has no bit of
    [PCI_X_CMD_DPERR_E] set, and the write is made only if it differs from
    the command value read at the start. *)
Theorem tune_dev_writes :
  forall (defs : pci_defs) (cfg : pci_config)
         (dev : device) (info : amd8132_bus_info),
    amd8132_pcix_tune_dev dev info = []
    \/ (amd8132_pcix_tune_dev dev info =
          [pci_write_config16 dev (u32 (pcix_cap dev + PCI_X_CMD))
             (tuned_cmd info (pcix_status dev) (pcix_orig_cmd dev))]
        /\ Z.land (tuned_cmd info (pcix_status dev) (pcix_orig_cmd dev))
             PCI_X_CMD_DPERR_E = 0
        /\ tuned_cmd info (pcix_status dev) (pcix_orig_cmd dev)
             <> pcix_orig_cmd dev).
Proof.
  intros defs cfg dev info. unfold amd8132_pcix_tune_dev.
  destruct (negb (hdr_type dev =? PCI_HEADER_TYPE_NORMAL)); [left; reflexivity |].
  destruct (pcix_cap dev =? 0); [left; reflexivity |].
  destruct (Z.eqb_spec (pcix_orig_cmd dev)
              (tuned_cmd info (pcix_status dev) (pcix_orig_cmd dev)))
    as [Hsame | Hdiff]; cbn [negb].
  - left. reflexivity.
  - right. rewrite tuned_cmd_as_read_width. split; [reflexivity | split].
    + rewrite <- tuned_cmd_as_read_width. apply tuned_cmd_no_dperr.
    + intro Heq. apply Hdiff. symmetry. exact Heq.
Qed.

(** On the sample device (command register 0x0001, status with read field 3
    and split field 7) behind an A1 bridge with three masters, the command
    0x001c is written: read field 3, split field 1, error recovery off. *)
Example tune_dev_sample_write :
  @amd8132_pcix_tune_dev pcix_layout sample_config sample_device
     (sample_info 1 3) =
    [pci_write_config16 sample_device 98 28].
Proof. reflexivity. Qed.

(** A device whose command register already holds the tuned value is not
    written to. *)
Example tune_dev_sample_no_write :
  @amd8132_pcix_tune_dev pcix_layout
     {| pci_find_capability := fun _ _ => 96;
        pci_read_config32 := fun _ _ => 65011712;
        pci_read_config16 := fun _ _ => 28 |}
     sample_device (sample_info 1 3) = [].
Proof. reflexivity. Qed.

(** ** X12SPW-F: GPIO configuration *)

Import X12spw.

(** C10: [mainboard_configure_gpios] and [mainboard_configure_early_gpios]
    have the same effect from every pad state: each makes the one call
    [gpio_configure_pads(gpio_table, ARRAY_SIZE(gpio_table))]. *)
Theorem configure_gpios_early_same :
  forall (pad_config : Type) (gpio_table : list pad_config)
         (pad_state : Type)
         (gpio_configure_pads : list pad_config -> Z -> pad_state -> pad_state)
         (s : pad_state),
    mainboard_configure_gpios pad_config gpio_table pad_state
      gpio_configure_pads s =
    mainboard_configure_early_gpios pad_config gpio_table pad_state
      gpio_configure_pads s
    /\ snd (mainboard_configure_gpios pad_config gpio_table pad_state
              gpio_configure_pads s) =
       [call_gpio_configure_pads pad_config gpio_table
          (ARRAY_SIZE pad_config gpio_table)]
    /\ snd (mainboard_configure_early_gpios pad_config gpio_table pad_state
              gpio_configure_pads s) =
       [call_gpio_configure_pads pad_config gpio_table
          (ARRAY_SIZE pad_config gpio_table)]
    /\ fst (mainboard_configure_gpios pad_config gpio_table pad_state
              gpio_configure_pads s) =
       gpio_configure_pads gpio_table (ARRAY_SIZE pad_config gpio_table) s.
Proof.
  intros. repeat split.
Qed.

(** ** AMD 8132: walking the bus *)

Import Amd8132Bus.

Section WalkFacts.

Context {bdefs : bus_defs}.
Variable S : Type.
Variable visit : device -> S -> S.

Let visit_all (l : list device) (st : S) : S :=
  fold_left (fun s d => visit d s) l st.

Lemma walk_children_app :
  forall (l1 l2 : list dev_node) (st : S),
    amd8132_walk_children visit (l1 ++ l2) st =
      amd8132_walk_children visit l2 (amd8132_walk_children visit l1 st).
Proof.
  induction l1 as [| c r IH]; intros l2 st.
  - reflexivity.
  - cbn [app amd8132_walk_children]. apply IH.
Qed.

Lemma walk_children_as_fold_of_children :
  forall (l : list dev_node),
    Forall (fun c => forall st : S,
                walk_child visit c st = visit_all (visit_order_of c) st) l ->
    forall st : S,
      amd8132_walk_children visit l st = visit_all (visit_order l) st.
Proof.
  intros l Hl. induction Hl as [| c r Hc Hr IH]; intro st.
  - reflexivity.
  - cbn [amd8132_walk_children]. rewrite Hc, IH.
    unfold visit_all, visit_order. cbn [flat_map].
    rewrite fold_left_app. reflexivity.
Qed.

Lemma walk_child_as_fold :
  forall (c : dev_node) (st : S),
    walk_child visit c st = visit_all (visit_order_of c) st.
Proof.
  intro c. induction c as [d pt kids Hkids] using dev_node_below.
  intro st. cbn [walk_child visit_order_of].
  destruct (negb (pt =? DEVICE_PATH_PCI)); [reflexivity |].
  unfold visit_all. rewrite fold_left_app. cbn [fold_left].
  destruct (hdr_type d =? PCI_HEADER_TYPE_BRIDGE); [| reflexivity].
  f_equal.
  change ((fix loop (l : list dev_node) (st0 : S) {struct l} : S :=
             match l with
             | [] => st0
             | c :: r => loop r (walk_child visit c st0)
             end) kids st)
    with (amd8132_walk_children visit kids st).
  apply (walk_children_as_fold_of_children kids Hkids).
Qed.

(** The walk is the visitor folded over the devices of [visit_order]. *)
Lemma walk_children_as_fold :
  forall (l : list dev_node) (st : S),
    amd8132_walk_children visit l st = visit_all (visit_order l) st.
Proof.
  intro l. apply walk_children_as_fold_of_children.
  apply Forall_forall. intros c _. apply walk_child_as_fold.
Qed.

End WalkFacts.

Lemma collect_fold :
  forall (l seen : list device),
    fold_left (fun s d => s ++ [d]) l seen = seen ++ l.
Proof.
  induction l as [| d r IH]; intro seen.
  - symmetry. apply app_nil_r.
  - cbn [fold_left]. rewrite IH, <- app_assoc. reflexivity.
Qed.

Lemma visited_as_visit_order :
  forall (bdefs : bus_defs) (l : list dev_node),
    visited l = visit_order l.
Proof.
  intros bdefs l. unfold visited.
  rewrite walk_children_as_fold. apply collect_fold.
Qed.

Lemma walk_children_over_visited :
  forall (bdefs : bus_defs) (S : Type) (visit : device -> S -> S)
         (l : list dev_node) (st : S),
    amd8132_walk_children visit l st =
      fold_left (fun s d => visit d s) (visited l) st.
Proof.
  intros bdefs S visit l st. rewrite visited_as_visit_order.
  apply walk_children_as_fold.
Qed.

(** X1: the visitor of [amd8132_walk_children] is called once for each
    device on a PCI path that is reached through PCI bridges, in sibling
    order, the devices below a bridge before the bridge itself; devices off
    the PCI path, and whatever hangs below them, are passed over.  For any
    visitor the walk is the visitor applied to these devices in turn. *)
Theorem walk_children_visit_order :
  forall (bdefs : bus_defs) (l : list dev_node),
    visited l = visit_order l
    /\ (forall (S : Type) (visit : device -> S -> S) (st : S),
           amd8132_walk_children visit l st =
             fold_left (fun s d => visit d s) (visited l) st).
Proof.
  intros bdefs l. split.
  - apply visited_as_visit_order.
  - intros S visit st. apply walk_children_over_visited.
Qed.

(** ** AMD 8132: counting the bus masters *)

Lemma s32_add_idem :
  forall (a b : Z), s32 (s32 a + b) = s32 (a + b).
Proof.
  intros a b. unfold s32. f_equal.
  replace ((a + 2 ^ 31) mod 2 ^ 32 - 2 ^ 31 + b + 2 ^ 31)
    with ((a + 2 ^ 31) mod 2 ^ 32 + b) by lia.
  rewrite Zplus_mod_idemp_l. f_equal. lia.
Qed.

Lemma count_dev_fields :
  forall (bdefs : bus_defs) (d : device) (info : amd8132_bus_info),
    rev (amd8132_count_dev d info) = rev info
    /\ sstatus (amd8132_count_dev d info) = sstatus info
    /\ master_devices (amd8132_count_dev d info) =
         if is_master d then s32 (master_devices info + 1)
         else master_devices info.
Proof.
  intros bdefs d info. unfold amd8132_count_dev, is_master.
  destruct (negb (hdr_type d =? PCI_HEADER_TYPE_BRIDGE));
    match goal with
    | |- context [if ?b then _ else _] => destruct b
    end; repeat split.
Qed.

Lemma count_fold :
  forall (bdefs : bus_defs) (l : list device) (info : amd8132_bus_info),
    let after := fold_left (fun s d => amd8132_count_dev d s) l info in
    rev after = rev info
    /\ sstatus after = sstatus info
    /\ s32 (master_devices after) =
         s32 (master_devices info
              + Z.of_nat (List.length (filter is_master l))).
Proof.
  intros bdefs l. induction l as [| d r IH]; intro info; cbn zeta.
  - cbn. rewrite Z.add_0_r. repeat split.
  - cbn [fold_left filter].
    destruct (IH (amd8132_count_dev d info)) as [Hrev [Hss Hm]].
    destruct (count_dev_fields bdefs d info) as [Hrev1 [Hss1 Hm1]].
    cbn zeta in Hrev, Hss, Hm.
    rewrite Hrev, Hss, Hm, Hrev1, Hss1, Hm1.
    split; [reflexivity | split; [reflexivity |]].
    destruct (is_master d).
    + cbn [List.length]. rewrite Nat2Z.inj_succ, s32_add_idem.
      f_equal. lia.
    + reflexivity.
Qed.

Lemma count_fold_in_range :
  forall (bdefs : bus_defs) (l : list device) (info : amd8132_bus_info),
    s32 (master_devices info) = master_devices info ->
    s32 (master_devices (fold_left (fun s d => amd8132_count_dev d s) l info))
    = master_devices (fold_left (fun s d => amd8132_count_dev d s) l info).
Proof.
  intros bdefs l. induction l as [| d r IH]; intros info Hin.
  - exact Hin.
  - cbn [fold_left]. apply IH.
    destruct (count_dev_fields bdefs d info) as [_ [_ Hm]]. rewrite Hm.
    destruct (is_master d); [| exact Hin].
    rewrite <- (Z.add_0_r (s32 (master_devices info + 1))) at 1.
    rewrite s32_add_idem, Z.add_0_r. reflexivity.
Qed.

(** X2: when [amd8132_scan_bus] has counted, [info.master_devices] is the
    number of visited devices that are not bridges (as an [int]), and
    [info.rev] and [info.sstatus] are still what was read from the bridge. *)
Theorem scan_bus_counts_masters :
  forall (defs : pci_defs) (bdefs : bus_defs) (hwc : pci_hw)
         (h : hw) (b : bus),
    master_devices (scanned_info h b) =
      s32 (Z.of_nat (List.length (filter is_master (visited (children b)))))
    /\ rev (scanned_info h b) =
         u8 (hw_read_config8 h (bus_dev b) PCI_CLASS_REVISION)
    /\ sstatus (scanned_info h b) =
         u16 (hw_read_config16 h (bus_dev b)
                (u32 (u32 (hw_find_capability h (bus_dev b) PCI_CAP_ID_PCIX)
                      + PCI_X_SEC_STATUS))).
Proof.
  intros defs bdefs hwc h b. unfold scanned_info.
  rewrite walk_children_over_visited.
  match goal with
  | |- context [fold_left _ _ ?i] =>
      destruct (count_fold bdefs (visited (children b)) i) as [Hrev [Hss Hm]];
      pose proof (count_fold_in_range bdefs (visited (children b)) i
                    eq_refl) as Hin
  end.
  cbn zeta in Hrev, Hss, Hm. rewrite Hrev, Hss, <- Hin, Hm.
  repeat split.
Qed.

(** ** AMD 8132: tuning the bus *)

Lemma tune_dev_cases :
  forall (defs : pci_defs) (cfg : pci_config)
         (dev : device) (info : amd8132_bus_info),
    amd8132_pcix_tune_dev dev info = []
    \/ exists v : Z,
        amd8132_pcix_tune_dev dev info =
          [pci_write_config16 dev (u32 (pcix_cap dev + PCI_X_CMD)) v]
        /\ hdr_type dev = PCI_HEADER_TYPE_NORMAL
        /\ Z.land v PCI_X_CMD_DPERR_E = 0
        /\ bits_below 16 v.
Proof.
  intros defs cfg dev info. unfold amd8132_pcix_tune_dev.
  destruct (Z.eqb_spec (hdr_type dev) PCI_HEADER_TYPE_NORMAL)
    as [Hnormal | Hother]; cbn [negb]; [| left; reflexivity].
  destruct (pcix_cap dev =? 0); [left; reflexivity |].
  destruct (negb (pcix_orig_cmd dev =?
                  tuned_cmd info (pcix_status dev) (pcix_orig_cmd dev)));
    [| left; reflexivity].
  right. exists (u16 (tuned_cmd info (pcix_status dev) (pcix_orig_cmd dev))).
  split; [reflexivity | split; [exact Hnormal | split]].
  - apply tuned_cmd_no_dperr.
  - unfold u16. apply bits_below_mod_width. lia.
Qed.

Lemma tune_visit_writes :
  forall (defs : pci_defs) (hwc : pci_hw) (info : amd8132_bus_info)
         (d : device) (st : hw * list config_write),
    exists ws : list config_write,
      snd (tune_visit info d st) = snd st ++ ws /\ device_tuning d ws.
Proof.
  intros defs hwc info d st. unfold tune_visit. cbn [snd].
  destruct (tune_dev_cases defs (snapshot (fst st)) d info)
    as [Hnone | (v & Hone & Hnormal & Hclear & Hfit)].
  - rewrite Hnone. exists []. split; [reflexivity | left; reflexivity].
  - rewrite Hone. eexists. split; [reflexivity |].
    right. exists (u32 (@pcix_cap defs (snapshot (fst st)) d + PCI_X_CMD)), v.
    repeat split; assumption.
Qed.

(** Device by device, what the tuning walk writes. *)
Lemma tune_fold_writes :
  forall (defs : pci_defs) (hwc : pci_hw) (info : amd8132_bus_info)
         (ds : list device) (st : hw * list config_write),
    exists per : list (list config_write),
      snd (fold_left (fun s d => tune_visit info d s) ds st) =
        snd st ++ List.concat per
      /\ Forall2 device_tuning ds per.
Proof.
  intros defs hwc info ds. induction ds as [| d r IH]; intro st.
  - exists []. cbn. rewrite app_nil_r. split; [reflexivity | constructor].
  - cbn [fold_left].
    destruct (IH (tune_visit info d st)) as (per & Heq & Hall).
    destruct (tune_visit_writes defs hwc info d st) as (ws & Heq1 & Hd).
    exists (ws :: per). cbn [List.concat]. rewrite Heq, Heq1, <- app_assoc.
    split; [reflexivity | constructor; assumption].
Qed.

Lemma no_tuning_writes :
  forall (defs : pci_defs) (ds : list device),
    List.concat (map (fun _ : device => @nil config_write) ds) = []
    /\ Forall2 device_tuning ds (map (fun _ : device => []) ds).
Proof.
  intros defs ds. induction ds as [| d r [IHc IHf]].
  - split; [reflexivity | constructor].
  - cbn [map List.concat app]. split; [exact IHc |].
    constructor; [left; reflexivity | exact IHf].
Qed.

(** X3: in conventional PCI mode [amd8132_scan_bus] makes no configuration
    write of its own: it returns the [max] of [pci_scan_bus] and leaves the
    machine as [pci_scan_bus] left it. *)
Theorem scan_bus_conventional :
  forall (defs : pci_defs) (bdefs : bus_defs) (hwc : pci_hw)
         (h : hw) (b : bus) (min_devfn max_devfn max : Z),
    PCI_X_SSTATUS_MFREQ
      (sstatus (scanned_info
                  (fst (fst (hw_scan_bus h b min_devfn max_devfn max)))
                  (snd (fst (hw_scan_bus h b min_devfn max_devfn max)))))
      = PCI_X_SSTATUS_CONVENTIONAL_PCI ->
    amd8132_scan_bus b min_devfn max_devfn max h =
      (u32 (snd (hw_scan_bus h b min_devfn max_devfn max)),
       fst (fst (hw_scan_bus h b min_devfn max_devfn max)),
       []).
Proof.
  intros defs bdefs hwc h b lo hi max Hconv. unfold amd8132_scan_bus.
  destruct (hw_scan_bus h b lo hi max) as [[h1 b1] max1].
  cbn [fst snd] in *. apply Z.eqb_eq in Hconv. rewrite Hconv. reflexivity.
Qed.

Lemma scan_bus_conventional_witness :
  @amd8132_scan_bus pcix_layout sample_bus_defs quiet_hw sample_bus 0 255 1 tt
  = (1, tt, []).
Proof.
  apply (scan_bus_conventional pcix_layout sample_bus_defs quiet_hw
           tt sample_bus 0 255 1).
  vm_compute. reflexivity.
Defined.

(** X4: whatever the machine answers, [amd8132_scan_bus] returns the [max]
    of [pci_scan_bus], and its configuration writes are, visited device by
    visited device and in the order of the visit, either nothing or exactly
    one 16-bit write to that device, which then is of normal header type,
    of a value that fits 16 bits and has no [PCI_X_CMD_DPERR_E] bit. *)
Theorem scan_bus_tuning_writes :
  forall (defs : pci_defs) (bdefs : bus_defs) (hwc : pci_hw)
         (h : hw) (b : bus) (min_devfn max_devfn max : Z),
    result_of (amd8132_scan_bus b min_devfn max_devfn max) h =
      u32 (snd (hw_scan_bus h b min_devfn max_devfn max))
    /\ exists per : list (list config_write),
        writes_of (amd8132_scan_bus b min_devfn max_devfn max) h =
          List.concat per
        /\ Forall2 device_tuning
             (visited
                (children
                   (snd (fst (hw_scan_bus h b min_devfn max_devfn max)))))
             per.
Proof.
  intros defs bdefs hwc h b lo hi max.
  unfold result_of, writes_of, amd8132_scan_bus.
  destruct (hw_scan_bus h b lo hi max) as [[h1 b1] max1]. cbn [fst snd].
  destruct (PCI_X_SSTATUS_MFREQ (sstatus (scanned_info h1 b1))
            =? PCI_X_SSTATUS_CONVENTIONAL_PCI).
  - cbn [fst snd]. split; [reflexivity |].
    exists (map (fun _ : device => []) (visited (children b1))).
    destruct (no_tuning_writes defs (visited (children b1))) as [Hc Hf].
    split; [symmetry; exact Hc | exact Hf].
  - rewrite walk_children_over_visited.
    destruct (tune_fold_writes defs hwc (scanned_info h1 b1)
                (visited (children b1)) (h1, []))
      as (per & Heq & Hall).
    destruct (fold_left _ (visited (children b1)) (h1, [])) as [h2 ws2].
    cbn [fst snd] in *. subst ws2. split; [reflexivity |].
    exists per. split; [reflexivity | exact Hall].
Qed.

(** On the sample bus the three cards on the PCI path are masters, the
    bridge comes after the two cards behind it, and the device off the PCI
    path is not visited. *)
Example visited_sample_bus :
  @visited sample_bus_defs (children sample_bus) =
    [ {| devfn := 8; hdr_type := 0 |};
      {| devfn := 24; hdr_type := 0 |};
      {| devfn := 25; hdr_type := 0 |};
      {| devfn := 16; hdr_type := 1 |} ]
  /\ master_devices
       (@scanned_info pcix_layout sample_bus_defs quiet_hw tt sample_bus) = 3.
Proof. split; reflexivity. Qed.

(** ** AMD 8132: bridge and IOAPIC initialisation *)

Import Amd8132Init.

Section ConfigFacts.

Context {bdefs : bus_defs} {hwc : pci_hw}.

Lemma cfg_bind_run :
  forall (A B : Type) (m : cfgM A) (k : A -> cfgM B) (h : hw),
    cfg_bind m k h =
      (result_of (k (result_of m h)) (state_of m h),
       state_of (k (result_of m h)) (state_of m h),
       writes_of m h ++ writes_of (k (result_of m h)) (state_of m h)).
Proof.
  intros A B m k h. unfold cfg_bind, result_of, state_of, writes_of.
  destruct (m h) as [[a h1] w1]. cbn [fst snd].
  destruct (k a h1) as [[b h2] w2]. reflexivity.
Qed.

Lemma writes_of_bind :
  forall (A B : Type) (m : cfgM A) (k : A -> cfgM B) (h : hw),
    writes_of (cfg_bind m k) h =
      writes_of m h ++ writes_of (k (result_of m h)) (state_of m h).
Proof.
  intros. unfold writes_of at 1. rewrite cfg_bind_run. reflexivity.
Qed.

Lemma state_of_bind :
  forall (A B : Type) (m : cfgM A) (k : A -> cfgM B) (h : hw),
    state_of (cfg_bind m k) h = state_of (k (result_of m h)) (state_of m h).
Proof.
  intros. unfold state_of at 1. rewrite cfg_bind_run. reflexivity.
Qed.

Lemma result_of_bind :
  forall (A B : Type) (m : cfgM A) (k : A -> cfgM B) (h : hw),
    result_of (cfg_bind m k) h = result_of (k (result_of m h)) (state_of m h).
Proof.
  intros. unfold result_of at 1. rewrite cfg_bind_run. reflexivity.
Qed.

Lemma writes_of_read8 :
  forall (dev : device) (reg : Z) (h : hw), writes_of (read8 dev reg) h = [].
Proof. reflexivity. Qed.

Lemma writes_of_read32 :
  forall (dev : device) (reg : Z) (h : hw), writes_of (read32 dev reg) h = [].
Proof. reflexivity. Qed.

Lemma state_of_read8 :
  forall (dev : device) (reg : Z) (h : hw), state_of (read8 dev reg) h = h.
Proof. reflexivity. Qed.

Lemma state_of_read32 :
  forall (dev : device) (reg : Z) (h : hw), state_of (read32 dev reg) h = h.
Proof. reflexivity. Qed.

Lemma writes_of_write32 :
  forall (dev : device) (reg v : Z) (h : hw),
    writes_of (write32 dev reg v) h = [cfg_write32 dev reg (u32 v)].
Proof. reflexivity. Qed.

Lemma writes_of_write8 :
  forall (dev : device) (reg v : Z) (h : hw),
    writes_of (write8 dev reg v) h = [cfg_write8 dev reg (u8 v)].
Proof. reflexivity. Qed.

Lemma writes_of_ret :
  forall (A : Type) (a : A) (h : hw), writes_of (cfg_ret a) h = [].
Proof. reflexivity. Qed.

End ConfigFacts.

(** The states between the accesses do not matter to what is written
    where: they are put out of sight as soon as they appear. *)
Ltac forget_states :=
  repeat match goal with
         | |- context [state_of ?m ?h] =>
             let h' := fresh "h" in generalize (state_of m h); intro h'
         end.

Ltac peel_step :=
  rewrite writes_of_bind; cbv beta;
  rewrite ?state_of_read8, ?state_of_read32,
    ?writes_of_read8, ?writes_of_read32, ?writes_of_write32,
    ?writes_of_write8, ?writes_of_ret;
  forget_states.

Ltac peel :=
  repeat peel_step;
  rewrite ?writes_of_write32, ?writes_of_write8, ?writes_of_ret.

Ltac split_ifs :=
  repeat (match goal with
          | |- context [writes_of (if ?c then _ else _) _] =>
              let E := fresh "E" in destruct c eqn:E
          end; peel).

(** Evaluation of one bit of a value built with [|=] and [&= ~]. *)
Ltac bit_rewrite :=
  unfold misc_40, misc_48, ecc_70, link_dc, ioapic_44, errata74,
    set_bits, clear_bits, u32;
  cbv zeta;
  repeat first
    [ rewrite Z.testbit_mod_pow2 by lia
    | rewrite Z.land_spec
    | rewrite Z.lor_spec
    | rewrite Z.lnot_spec by lia ].

Ltac bit_atoms :=
  repeat match goal with
         | |- context [Z.testbit ?x ?n] =>
             first [ is_var x | match x with hw_read_config32 _ _ _ => idtac end ];
             let b := fresh "b" in generalize (Z.testbit x n); intro b
         end.

Ltac bit_solve :=
  bit_rewrite; bit_atoms;
  repeat match goal with b : bool |- _ => destruct b end;
  reflexivity.

Ltac init_cases dev h :=
  peel;
  change (result_of (read8 dev PCI_CLASS_REVISION) h)
    with (u8 (hw_read_config8 h dev PCI_CLASS_REVISION));
  split_ifs; cbn [app map write_reg].

(** X5: [amd8132_pcix_init] writes, in this order, to the command register,
    to the cache line size register (only on revision 0x01), to the command
    register again, to 0x3c, 0x40, 0x48, 0x4c, 0x70, 0xd4 and 0xdc, and to
    0xf0 (only on revision 0x11); every write goes to the device it was
    called for, and all are 32-bit writes but the one to the cache line
    size, which writes 0x10. *)
Theorem pcix_init_registers :
  forall (bdefs : bus_defs) (hwc : pci_hw) (dev : device) (h : hw),
    exists cls clk : bool,
      map write_reg (writes_of (amd8132_pcix_init dev) h) =
        [PCI_COMMAND] ++ (if cls then [PCI_CACHE_LINE_SIZE] else [])
        ++ [PCI_COMMAND; 0x3c; 0x40; 0x48; 0x4c; 0x70; 0xd4; 0xdc]
        ++ (if clk then [0xf0] else [])
      /\ (cls = true -> u8 (hw_read_config8 h dev PCI_CLASS_REVISION) = 0x01)
      /\ (clk = true -> u8 (hw_read_config8 h dev PCI_CLASS_REVISION) = 0x11)
      /\ Forall (fun w => write_dev w = dev)
           (writes_of (amd8132_pcix_init dev) h)
      /\ Forall init_write_kind (writes_of (amd8132_pcix_init dev) h).
Proof.
  intros bdefs hwc dev h. unfold amd8132_pcix_init. init_cases dev h.
  all: first
    [ exists true, true; split; [reflexivity |]
    | exists true, false; split; [reflexivity |]
    | exists false, true; split; [reflexivity |]
    | exists false, false; split; [reflexivity |] ].
  all: split; [intro; first [apply Z.eqb_eq; assumption | discriminate] |].
  all: split; [intro; first [apply Z.eqb_eq; assumption | discriminate] |].
  all: split; repeat constructor.
Qed.

Ltac forget_reads :=
  repeat match goal with
         | |- context [result_of (read32 ?d ?r) ?h] =>
             let x := fresh "x" in
             generalize (result_of (read32 d r) h); intro x
         end.

Ltac forced_case :=
  forget_reads; unfold forced_bits; cbn [write_reg write_value];
  (split; [| split; [| split]]);
  (let Hreg := fresh "Hreg" in
   intro Hreg;
   first [ exfalso; lia
         | exfalso; discriminate Hreg
         | repeat split; bit_solve ]).

(** X6: with the command and cache line size registers in the standard
    header (below 0x3c), every value [amd8132_pcix_init] writes to 0x40 has
    bits 31, 7, 21 and 22 set, to 0x48 has bit 3 set and bit 0 clear, to 0x70
    has bit 30 clear, and to 0xdc has bits 18 and 26 set and bits 16, 17, 24
    and 25 clear, whatever the registers held before. *)
Theorem pcix_init_forced_bits :
  forall (bdefs : bus_defs) (hwc : pci_hw) (dev : device) (h : hw),
    PCI_COMMAND < 0x3c ->
    PCI_CACHE_LINE_SIZE < 0x3c ->
    Forall (fun w => forced_bits (write_reg w) (write_value w))
      (writes_of (amd8132_pcix_init dev) h).
Proof.
  intros bdefs hwc dev h Hcmd Hcls. unfold amd8132_pcix_init.
  init_cases dev h.
  all: repeat (apply Forall_cons; [forced_case |]); apply Forall_nil.
Qed.

Lemma pcix_init_forced_bits_witness :
  Forall (fun w => forced_bits (write_reg w) (write_value w))
    (@writes_of quiet_hw unit
       (@amd8132_pcix_init sample_bus_defs quiet_hw sample_device) tt).
Proof.
  apply (pcix_init_forced_bits sample_bus_defs quiet_hw sample_device tt).
  - vm_compute. reflexivity.
  - vm_compute. reflexivity.
Defined.

(** A property of bit positions holds everywhere if it holds at the 32
    positions of a [u32], below them and above them. *)
Lemma u32_positions_cover :
  forall (P : Z -> Prop),
    Forall P u32_positions ->
    (forall n : Z, n < 0 -> P n) ->
    (forall n : Z, 32 <= n -> P n) ->
    forall n : Z, P n.
Proof.
  intros P Hin Hneg Hhigh n.
  destruct (Z.lt_ge_cases n 0) as [Hn | Hn]; [apply Hneg, Hn |].
  destruct (Z.lt_ge_cases n 32) as [Hlt | Hge]; [| apply Hhigh, Hge].
  rewrite Forall_forall in Hin. apply Hin.
  change u32_positions with (map Z.of_nat (seq 0 32)).
  apply in_map_iff. exists (Z.to_nat n). split; [lia |].
  apply in_seq. lia.
Qed.

Ltac bit_map_solve :=
  let n := fresh "n" in
  intro n; pattern n; apply u32_positions_cover; clear n;
  [ unfold u32_positions; repeat (apply Forall_cons; [bit_solve |]);
    apply Forall_nil
  | intros n Hn; rewrite !Z.testbit_neg_r by exact Hn;
    replace (n <? 32) with true by (symmetry; apply Z.ltb_lt; lia);
    unfold bit_in; cbn [existsb];
    repeat match goal with
           | |- context [n =? ?k] =>
               replace (n =? k) with false by (symmetry; apply Z.eqb_neq; lia)
           end;
    reflexivity
  | intros n Hn; bit_rewrite;
    replace (n <? 32) with false by (symmetry; apply Z.ltb_ge; lia);
    reflexivity ].

Lemma init_bit_updates :
  forall (x : Z),
    bit_update [7; 21; 22; 31] [] x (u32 (misc_40 x))
    /\ bit_update [3; 15; 19; 22; 23; 24; 29; 30] [0] x (u32 (misc_48 x))
    /\ bit_update [] [30] x (u32 (ecc_70 x))
    /\ bit_update [1; 4; 18; 26] [16; 17; 24; 25] x (u32 (link_dc x)).
Proof.
  intro x. unfold bit_update.
  split; [| split; [| split]]; bit_map_solve.
Qed.

Section ReplayFacts.

Context {bdefs : bus_defs} {hwc : pci_hw}.

Lemma writes_follow_reads_app :
  forall (ws1 ws2 : list config_write) (h : hw),
    writes_follow_reads h ws1 ->
    writes_follow_reads (replay h ws1) ws2 ->
    writes_follow_reads h (ws1 ++ ws2).
Proof.
  induction ws1 as [| w r IH]; intros ws2 h H1 H2.
  - exact H2.
  - destruct H1 as [Hw Hr]. cbn [app writes_follow_reads].
    split; [exact Hw | apply IH; assumption].
Qed.

Lemma faithful_at_bind :
  forall (A B : Type) (m : cfgM A) (k : A -> cfgM B) (h : hw),
    faithful_at m h ->
    faithful_at (k (result_of m h)) (state_of m h) ->
    faithful_at (cfg_bind m k) h.
Proof.
  intros A B m k h [Hs1 Hw1] [Hs2 Hw2]. unfold faithful_at.
  rewrite state_of_bind, writes_of_bind. split.
  - rewrite Hs2, Hs1. unfold replay. rewrite fold_left_app. reflexivity.
  - apply writes_follow_reads_app; [exact Hw1 |].
    rewrite <- Hs1. exact Hw2.
Qed.

Lemma faithful_at_read32_bind :
  forall (B : Type) (dev : device) (reg : Z) (k : Z -> cfgM B) (h : hw),
    faithful_at (k (u32 (hw_read_config32 h dev reg))) h ->
    faithful_at (cfg_bind (read32 dev reg) k) h.
Proof.
  intros B dev reg k h Hk. apply faithful_at_bind.
  - split; [reflexivity | exact I].
  - exact Hk.
Qed.

Lemma faithful_at_read8_bind :
  forall (B : Type) (dev : device) (reg : Z) (k : Z -> cfgM B) (h : hw),
    faithful_at (k (u8 (hw_read_config8 h dev reg))) h ->
    faithful_at (cfg_bind (read8 dev reg) k) h.
Proof.
  intros B dev reg k h Hk. apply faithful_at_bind.
  - split; [reflexivity | exact I].
  - exact Hk.
Qed.

Lemma faithful_at_seq :
  forall (A B : Type) (m : cfgM A) (k : A -> cfgM B) (h : hw),
    faithful_at m h ->
    (forall (a : A) (h' : hw), faithful_at (k a) h') ->
    faithful_at (cfg_bind m k) h.
Proof.
  intros A B m k h Hm Hk. apply faithful_at_bind; [exact Hm | apply Hk].
Qed.

Lemma faithful_at_ret :
  forall (A : Type) (a : A) (h : hw), faithful_at (cfg_ret a) h.
Proof.
  intros. split; [reflexivity | exact I].
Qed.

Lemma faithful_at_write8 :
  forall (dev : device) (reg v : Z) (h : hw),
    faithful_at (write8 dev reg v) h.
Proof.
  intros. split; [reflexivity | split; exact I].
Qed.

Lemma faithful_at_write32 :
  forall (dev : device) (reg v : Z) (h : hw),
    rmw_value reg (u32 (hw_read_config32 h dev reg)) (u32 v) ->
    faithful_at (write32 dev reg v) h.
Proof.
  intros dev reg v h Hv. split; [reflexivity | split; [exact Hv | exact I]].
Qed.

End ReplayFacts.

Ltac rmw_solve :=
  unfold rmw_value; (split; [| split; [| split]]);
  (let Hreg := fresh "Hreg" in
   intro Hreg;
   first [ exfalso; lia
         | exfalso; discriminate Hreg
         | apply init_bit_updates ]).

Ltac faithful_solve :=
  repeat first
    [ apply faithful_at_read32_bind; cbv beta
    | apply faithful_at_read8_bind; cbv beta
    | apply faithful_at_ret
    | apply faithful_at_write8
    | apply faithful_at_write32; rmw_solve
    | match goal with
      | |- faithful_at (if ?c then _ else _) _ => destruct c
      end
    | apply faithful_at_seq; [| intros ? ?; cbv beta] ].

Ltac written_solve :=
  cbn [In]; repeat first [left; reflexivity | right].

(** X7: with the command and cache line size registers in the standard
    header (below 0x3c), [amd8132_pcix_init] writes to 0x40, 0x48, 0x70 and
    0xdc, and whenever it writes to one of them the value written is the
    value that register answers at that moment (after the writes made
    before) with exactly the bits its comments name changed: for 0x40 bits
    7, 21, 22 and 31 set; for 0x48 bits 3, 15, 19, 22, 23, 24, 29 and 30
    set and bit 0 cleared; for 0x70 bit 30 cleared; for 0xdc bits 1, 4, 18
    and 26 set and bits 16, 17, 24 and 25 cleared.  All other bits of the
    32 keep the value read. *)
Theorem pcix_init_bit_maps :
  forall (bdefs : bus_defs) (hwc : pci_hw) (dev : device) (h : hw),
    PCI_COMMAND < 0x3c ->
    PCI_CACHE_LINE_SIZE < 0x3c ->
    writes_follow_reads h (writes_of (amd8132_pcix_init dev) h)
    /\ Forall
         (fun reg => In reg (map write_reg (writes_of (amd8132_pcix_init dev) h)))
         [0x40; 0x48; 0x70; 0xdc].
Proof.
  intros bdefs hwc dev h Hcmd Hcls. split.
  - assert (Hf : faithful_at (amd8132_pcix_init dev) h).
    { unfold amd8132_pcix_init. faithful_solve. }
    exact (proj2 Hf).
  - unfold amd8132_pcix_init. init_cases dev h.
    all: repeat (apply Forall_cons; [written_solve |]); apply Forall_nil.
Qed.

Lemma pcix_init_bit_maps_witness :
  @writes_follow_reads quiet_hw tt
    (@writes_of quiet_hw unit
       (@amd8132_pcix_init sample_bus_defs quiet_hw sample_device) tt)
  /\ Forall
       (fun reg =>
          In reg
            (map write_reg
               (@writes_of quiet_hw unit
                  (@amd8132_pcix_init sample_bus_defs quiet_hw sample_device)
                  tt)))
       [0x40; 0x48; 0x70; 0xdc].
Proof.
  apply (pcix_init_bit_maps sample_bus_defs quiet_hw sample_device tt).
  - vm_compute. reflexivity.
  - vm_compute. reflexivity.
Defined.

(** X8: [ioapic_enable] makes exactly one write, to register 0x44 of its
    device: the value read from there with bits 0 and 1 both set when the
    device is enabled and both cleared when it is not, every other bit as
    read. *)
Theorem ioapic_enable_write :
  forall (bdefs : bus_defs) (hwc : pci_hw)
         (dev : device) (enabled : Z) (h : hw),
    exists v : Z,
      ioapic_enable dev enabled h =
        (tt, hw_write_config32 h dev 0x44 v, [cfg_write32 dev 0x44 v])
      /\ forall n : Z,
          Z.testbit v n =
            (n <? 32)
            && (if bit_in n [0; 1] then negb (enabled =? 0)
                else Z.testbit (hw_read_config32 h dev 0x44) n).
Proof.
  intros bdefs hwc dev enabled h.
  exists (u32 (ioapic_44 enabled (u32 (hw_read_config32 h dev 0x44)))).
  split; [reflexivity |].
  generalize (hw_read_config32 h dev 0x44). intro x.
  unfold ioapic_44. destruct (negb (enabled =? 0)); bit_map_solve.
Qed.

Ltac ioapic_case :=
  forget_reads; split; [reflexivity |];
  unfold ioapic_forced_bits; cbn [write_reg write_value];
  split;
  (let Hreg := fresh "Hreg" in
   intro Hreg;
   first [ exfalso; lia
         | exfalso; discriminate Hreg
         | repeat split; bit_solve ]).

(** X9: [amd8132_ioapic_init] writes nothing and leaves the machine as it
    is unless the revision is 0x11 or 0x12; on those it writes to 0x80, 0x88
    and 0x7c of its device, in this order, with bits 5 to 9 set in the first
    two values and bits 31:30 equal to 01 in the third. *)
Theorem ioapic_init_writes :
  forall (bdefs : bus_defs) (hwc : pci_hw) (dev : device) (h : hw),
    map write_reg (writes_of (amd8132_ioapic_init dev) h) =
      (if (u8 (hw_read_config8 h dev PCI_CLASS_REVISION) =? 0x11)
          || (u8 (hw_read_config8 h dev PCI_CLASS_REVISION) =? 0x12)
       then [0x80; 0x88; 0x7c] else [])
    /\ Forall (fun w => write_dev w = dev
                        /\ ioapic_forced_bits (write_reg w) (write_value w))
         (writes_of (amd8132_ioapic_init dev) h)
    /\ (if (u8 (hw_read_config8 h dev PCI_CLASS_REVISION) =? 0x11)
           || (u8 (hw_read_config8 h dev PCI_CLASS_REVISION) =? 0x12)
        then True
        else state_of (amd8132_ioapic_init dev) h = h).
Proof.
  intros bdefs hwc dev h. unfold amd8132_ioapic_init.
  rewrite writes_of_bind, state_of_bind.
  rewrite writes_of_read8, state_of_read8.
  change (result_of (read8 dev PCI_CLASS_REVISION) h)
    with (u8 (hw_read_config8 h dev PCI_CLASS_REVISION)).
  destruct ((u8 (hw_read_config8 h dev PCI_CLASS_REVISION) =? 0x11)
            || (u8 (hw_read_config8 h dev PCI_CLASS_REVISION) =? 0x12)).
  - peel. cbn [app map write_reg].
    split; [reflexivity | split; [| exact I]].
    repeat (apply Forall_cons; [ioapic_case |]). apply Forall_nil.
  - cbn [app]. rewrite writes_of_ret.
    split; [reflexivity | split; [apply Forall_nil | reflexivity]].
Qed.

(** ** AMD 8132: what the tuning leaves in the command register *)

Import Amd8132Fields.

Lemma field_mask_bit :
  forall (s w n : Z), 0 <= s -> 0 <= w ->
    Z.testbit (field_mask s w) n = in_field s w n.
Proof.
  intros s w n Hs Hw. unfold field_mask, in_field.
  destruct (Z.lt_ge_cases n 0) as [Hneg | Hpos].
  - rewrite Z.testbit_neg_r by exact Hneg.
    replace (s <=? n) with false by (symmetry; apply Z.leb_gt; lia).
    reflexivity.
  - rewrite Z.shiftl_spec by exact Hpos.
    destruct (Z.leb_spec s n) as [Hle | Hgt].
    + rewrite Z.testbit_ones_nonneg by lia.
      cbn [andb]. destruct (Z.ltb_spec (n - s) w), (Z.ltb_spec n (s + w));
        (reflexivity || lia).
    + rewrite Z.testbit_neg_r by lia. reflexivity.
Qed.

Lemma field_mask_u32 :
  forall (s w : Z), 0 <= s -> 0 <= w -> s + w <= 32 ->
    u32 (field_mask s w) = field_mask s w.
Proof.
  intros s w Hs Hw Hfit. unfold u32. apply Z.bits_inj'. intros n Hn.
  rewrite Z.testbit_mod_pow2 by lia.
  rewrite field_mask_bit by assumption. unfold in_field.
  destruct (Z.ltb_spec n 32); [reflexivity |].
  replace (n <? s + w) with false by (symmetry; apply Z.ltb_ge; lia).
  rewrite andb_false_r. reflexivity.
Qed.

Lemma field_update_bits :
  forall (s w field cmd n : Z),
    0 <= s -> 0 <= w -> s + w <= 32 ->
    bits_below w field -> bits_below 32 cmd ->
    Z.testbit (field_update s w field cmd) n =
      if in_field s w n then Z.testbit field (n - s) else Z.testbit cmd n.
Proof.
  intros s w field cmd n Hs Hw Hfit Hfield Hcmd.
  destruct (Z.lt_ge_cases n 0) as [Hneg | Hpos].
  { rewrite Z.testbit_neg_r by exact Hneg. unfold in_field.
    replace (s <=? n) with false by (symmetry; apply Z.leb_gt; lia).
    cbn [andb]. rewrite Z.testbit_neg_r by exact Hneg. reflexivity. }
  unfold field_update. rewrite field_mask_u32 by assumption.
  destruct (Z.eqb_spec field (Z.shiftr (Z.land cmd (field_mask s w)) s))
    as [Heq | Hne]; cbn [negb].
  - destruct (in_field s w n) eqn:Hin; [| reflexivity].
    rewrite Heq at 1. rewrite Z.shiftr_spec by (unfold in_field in Hin; lia).
    replace (n - s + s) with n by lia.
    rewrite Z.land_spec, field_mask_bit, Hin by assumption.
    symmetry. apply andb_true_r.
  - unfold clear_bits, u32.
    rewrite !Z.testbit_mod_pow2, Z.lor_spec, !Z.testbit_mod_pow2 by lia.
    rewrite Z.land_spec, Z.lnot_spec, Z.shiftl_spec by lia.
    rewrite field_mask_bit by assumption.
    destruct (in_field s w n) eqn:Hin; cbn [negb].
    + unfold in_field in Hin. apply andb_true_iff in Hin.
      destruct Hin as [Hlo Hhi]. apply Z.leb_le in Hlo. apply Z.ltb_lt in Hhi.
      replace (n <? 32) with true by (symmetry; apply Z.ltb_lt; lia).
      rewrite andb_false_r. reflexivity.
    + rewrite andb_true_r.
      assert (Hout : Z.testbit field (n - s) = false).
      { unfold in_field in Hin. apply andb_false_iff in Hin.
        destruct Hin as [Hlo | Hhi].
        - apply Z.leb_gt in Hlo. apply Z.testbit_neg_r. lia.
        - apply Z.ltb_ge in Hhi. apply Hfield. lia. }
      rewrite Hout, andb_false_r, orb_false_r.
      destruct (Z.ltb_spec n 32) as [Hlt | Hge]; cbn [andb].
      * reflexivity.
      * symmetry. apply Hcmd. exact Hge.
Qed.

Lemma field_update_width :
  forall (s w field cmd : Z),
    0 <= s -> 0 <= w -> s + w <= 32 ->
    bits_below w field -> bits_below 32 cmd ->
    bits_below 32 (field_update s w field cmd).
Proof.
  intros s w field cmd Hs Hw Hfit Hfield Hcmd n Hn.
  rewrite field_update_bits by assumption. unfold in_field.
  replace (n <? s + w) with false by (symmetry; apply Z.ltb_ge; lia).
  rewrite andb_false_r. apply Hcmd. exact Hn.
Qed.

Section Standard.

Context {defs : pci_defs}.
Hypothesis layout : standard_pcix_fields defs.

Lemma update_max_read_as_field :
  forall (max_read cmd : Z),
    update_max_read max_read cmd = field_update 2 2 max_read cmd.
Proof.
  intros. destruct layout as (_ & Hr & _). unfold update_max_read.
  rewrite Hr. reflexivity.
Qed.

Lemma update_max_tran_as_field :
  forall (max_tran cmd : Z),
    update_max_tran max_tran cmd = field_update 4 3 max_tran cmd.
Proof.
  intros. destruct layout as (_ & _ & Ht & _). unfold update_max_tran.
  rewrite Ht. reflexivity.
Qed.

Lemma status_max_read_width :
  forall (status : Z), bits_below 2 (status_max_read status).
Proof.
  intros status n Hn. destruct layout as (_ & _ & _ & Hr & _).
  unfold status_max_read. rewrite Hr.
  rewrite Z.shiftr_spec, Z.land_spec by lia.
  change (u32 0x00600000) with (field_mask 21 2).
  rewrite field_mask_bit by lia. unfold in_field.
  replace (n + 21 <? 21 + 2) with false by (symmetry; apply Z.ltb_ge; lia).
  rewrite !andb_false_r. reflexivity.
Qed.

Lemma status_max_tran_width :
  forall (status : Z), bits_below 3 (status_max_tran status).
Proof.
  intros status n Hn. destruct layout as (_ & _ & _ & _ & Ht).
  unfold status_max_tran. rewrite Ht.
  rewrite Z.shiftr_spec, Z.land_spec by lia.
  change (u32 0x03800000) with (field_mask 23 3).
  rewrite field_mask_bit by lia. unfold in_field.
  replace (n + 23 <? 23 + 3) with false by (symmetry; apply Z.ltb_ge; lia).
  rewrite !andb_false_r. reflexivity.
Qed.

Lemma errata53_width3 :
  forall (info : amd8132_bus_info) (max_tran : Z),
    bits_below 3 max_tran -> bits_below 3 (errata53 info max_tran).
Proof.
  intros info max_tran Hm. unfold errata53.
  assert (Hconst : forall c : Z, 0 <= c < 2 ^ 3 -> bits_below 3 c)
    by (intros c Hc; apply bits_below_small; lia).
  destruct (rev info =? 1); [| exact Hm].
  destruct (2 <=? sibs_of info); [| destruct (sibs_of info =? 1)];
    match goal with
    | |- bits_below 3 (if ?b then _ else _) => destruct b
    end; try exact Hm; apply Hconst; lia.
Qed.

Lemma tuned_max_tran_width :
  forall (info : amd8132_bus_info) (status : Z),
    bits_below 3 (tuned_max_tran info status).
Proof.
  intros. unfold tuned_max_tran. apply errata53_width3, status_max_tran_width.
Qed.

(** Bit by bit, the command value the tuning computes. *)
Lemma tuned_cmd_bits :
  forall (info : amd8132_bus_info) (status orig_cmd n : Z),
    bits_below 32 orig_cmd ->
    Z.testbit (tuned_cmd info status orig_cmd) n =
      if n =? 0 then false
      else if in_field 2 2 n then Z.testbit (status_max_read status) (n - 2)
      else if in_field 4 3 n
           then Z.testbit (tuned_max_tran info status) (n - 4)
      else Z.testbit orig_cmd n.
Proof.
  intros info status orig_cmd n Horig. unfold tuned_cmd.
  rewrite update_max_read_as_field, update_max_tran_as_field.
  destruct layout as (Hd & _). rewrite Hd.
  destruct (Z.lt_ge_cases n 0) as [Hneg | Hpos].
  { rewrite Z.testbit_neg_r by exact Hneg.
    replace (n =? 0) with false by (symmetry; apply Z.eqb_neq; lia).
    unfold in_field.
    replace (2 <=? n) with false by (symmetry; apply Z.leb_gt; lia).
    replace (4 <=? n) with false by (symmetry; apply Z.leb_gt; lia).
    cbn [andb]. rewrite Z.testbit_neg_r by exact Hneg. reflexivity. }
  assert (Hw1 : bits_below 32
                  (field_update 2 2 (status_max_read status) orig_cmd)).
  { apply field_update_width; try lia;
      [apply status_max_read_width | exact Horig]. }
  assert (Hw2 : bits_below 32
                  (field_update 4 3 (tuned_max_tran info status)
                     (field_update 2 2 (status_max_read status) orig_cmd))).
  { apply field_update_width; try lia;
      [apply tuned_max_tran_width | exact Hw1]. }
  unfold clear_bits, u32. rewrite Z.testbit_mod_pow2 by lia.
  rewrite Z.land_spec, Z.lnot_spec by lia.
  change 1 with (field_mask 0 1) at 1. rewrite field_mask_bit by lia.
  rewrite field_update_bits
    by first [lia | apply tuned_max_tran_width | exact Hw1].
  rewrite field_update_bits
    by first [lia | apply status_max_read_width | exact Horig].
  assert (Hhigh : 32 <= n -> Z.testbit orig_cmd n = false)
    by (intro Hge; apply Horig; exact Hge).
  unfold in_field.
  destruct (Z.eqb_spec n 0), (Z.leb_spec 0 n), (Z.ltb_spec n (0 + 1)),
    (Z.leb_spec 2 n), (Z.ltb_spec n (2 + 2)),
    (Z.leb_spec 4 n), (Z.ltb_spec n (4 + 3)), (Z.ltb_spec n 32);
    cbn [andb negb]; try lia; rewrite ?andb_true_r, ?andb_false_r;
    try reflexivity.
  rewrite Hhigh by assumption. reflexivity.
Qed.


Lemma tuned_cmd_u32 :
  forall (info : amd8132_bus_info) (status orig_cmd : Z),
    bits_below 32 (tuned_cmd info status orig_cmd).
Proof.
  intros. unfold tuned_cmd, clear_bits, u32. apply bits_below_mod_width. lia.
Qed.

Lemma tuned_cmd_max_read_field :
  forall (info : amd8132_bus_info) (status orig_cmd : Z),
    bits_below 32 orig_cmd ->
    Z.shiftr (Z.land (tuned_cmd info status orig_cmd) 0x000c) 2 =
      status_max_read status.
Proof.
  intros info status orig_cmd Horig. apply Z.bits_inj'. intros n Hn.
  rewrite Z.shiftr_spec, Z.land_spec by exact Hn.
  rewrite tuned_cmd_bits by exact Horig.
  change 0x000c with (field_mask 2 2). rewrite field_mask_bit by lia.
  replace (n + 2 =? 0) with false by (symmetry; apply Z.eqb_neq; lia).
  replace (n + 2 - 2) with n by lia.
  destruct (in_field 2 2 (n + 2)) eqn:Hin.
  - apply andb_true_r.
  - rewrite andb_false_r. symmetry. apply status_max_read_width.
    unfold in_field in Hin. apply andb_false_iff in Hin.
    destruct Hin as [Hlo | Hhi];
      [apply Z.leb_gt in Hlo | apply Z.ltb_ge in Hhi]; lia.
Qed.

Lemma tuned_cmd_max_split_field :
  forall (info : amd8132_bus_info) (status orig_cmd : Z),
    bits_below 32 orig_cmd ->
    Z.shiftr (Z.land (tuned_cmd info status orig_cmd) 0x0070) 4 =
      tuned_max_tran info status.
Proof.
  intros info status orig_cmd Horig. apply Z.bits_inj'. intros n Hn.
  rewrite Z.shiftr_spec, Z.land_spec by exact Hn.
  rewrite tuned_cmd_bits by exact Horig.
  change 0x0070 with (field_mask 4 3). rewrite field_mask_bit by lia.
  replace (n + 4 =? 0) with false by (symmetry; apply Z.eqb_neq; lia).
  replace (n + 4 - 4) with n by lia.
  assert (H2 : in_field 2 2 (n + 4) = false).
  { unfold in_field. apply andb_false_iff. right. apply Z.ltb_ge. lia. }
  rewrite H2.
  destruct (in_field 4 3 (n + 4)) eqn:Hin.
  - apply andb_true_r.
  - rewrite andb_false_r. symmetry. apply tuned_max_tran_width.
    unfold in_field in Hin. apply andb_false_iff in Hin.
    destruct Hin as [Hlo | Hhi];
      [apply Z.leb_gt in Hlo | apply Z.ltb_ge in Hhi]; lia.
Qed.

Lemma tuned_cmd_other_bits :
  forall (info : amd8132_bus_info) (status orig_cmd : Z),
    bits_below 32 orig_cmd ->
    Z.land (tuned_cmd info status orig_cmd) (Z.lnot 0x7d) =
      Z.land orig_cmd (Z.lnot 0x7d).
Proof.
  intros info status orig_cmd Horig. apply Z.bits_inj'. intros n Hn.
  rewrite !Z.land_spec, Z.lnot_spec by exact Hn.
  rewrite tuned_cmd_bits by exact Horig.
  change 0x7d with (Z.lor (field_mask 0 1) (field_mask 2 5)).
  rewrite Z.lor_spec, !field_mask_bit by lia. unfold in_field.
  destruct (Z.eqb_spec n 0), (Z.leb_spec 0 n), (Z.ltb_spec n (0 + 1)),
    (Z.leb_spec 2 n), (Z.ltb_spec n (2 + 2)), (Z.ltb_spec n (2 + 5)),
    (Z.leb_spec 4 n), (Z.ltb_spec n (4 + 3));
    cbn [andb negb orb]; try lia;
    rewrite ?andb_true_r, ?andb_false_r; reflexivity.
Qed.

Lemma tuned_cmd_idempotent :
  forall (info : amd8132_bus_info) (status orig_cmd : Z),
    bits_below 32 orig_cmd ->
    tuned_cmd info status (tuned_cmd info status orig_cmd) =
      tuned_cmd info status orig_cmd.
Proof.
  intros info status orig_cmd Horig. apply Z.bits_inj. intro n.
  rewrite (tuned_cmd_bits info status (tuned_cmd info status orig_cmd))
    by apply tuned_cmd_u32.
  rewrite (tuned_cmd_bits info status orig_cmd n) by exact Horig.
  destruct (n =? 0); [reflexivity |].
  destruct (in_field 2 2 n); [reflexivity |].
  destruct (in_field 4 3 n); reflexivity.
Qed.

End Standard.

(** X10: with the standard field layout, the command value the tuning
    computes has the device's maximum read size (from the status register)
    in its read field, the split-transaction limit after Errata #53 in its
    split field, the parity error recovery bit clear, and every bit outside
    these (the mask 0x7d) as it was read. *)
Theorem tuned_cmd_fields :
  forall (defs : pci_defs) (cfg : pci_config)
         (dev : device) (info : amd8132_bus_info),
    standard_pcix_fields defs ->
    Z.shiftr (Z.land (tuned_cmd info (pcix_status dev) (pcix_orig_cmd dev))
                PCI_X_CMD_MAX_READ) 2 =
      status_max_read (pcix_status dev)
    /\ Z.shiftr (Z.land (tuned_cmd info (pcix_status dev) (pcix_orig_cmd dev))
                   PCI_X_CMD_MAX_SPLIT) 4 =
         tuned_max_tran info (pcix_status dev)
    /\ Z.land (tuned_cmd info (pcix_status dev) (pcix_orig_cmd dev))
         PCI_X_CMD_DPERR_E = 0
    /\ Z.land (tuned_cmd info (pcix_status dev) (pcix_orig_cmd dev))
         (Z.lnot 0x7d) =
       Z.land (pcix_orig_cmd dev) (Z.lnot 0x7d).
Proof.
  intros defs cfg dev info layout.
  assert (Horig : bits_below 32 (pcix_orig_cmd dev)).
  { apply (bits_below_mono 16); [lia |]. unfold pcix_orig_cmd, u16.
    apply bits_below_mod_width. lia. }
  pose proof layout as (Hd & Hr & Ht & _). rewrite Hd, Hr, Ht.
  split; [| split; [| split]].
  - apply tuned_cmd_max_read_field; assumption.
  - apply tuned_cmd_max_split_field; assumption.
  - rewrite <- Hd, <- tuned_cmd_as_read_width. apply tuned_cmd_no_dperr.
  - apply tuned_cmd_other_bits; assumption.
Qed.

Lemma tuned_cmd_fields_witness :
  Z.shiftr (Z.land (@tuned_cmd pcix_layout (sample_info 1 3)
                      (@pcix_status pcix_layout sample_config sample_device)
                      (@pcix_orig_cmd pcix_layout sample_config sample_device))
              12) 2 = 3
  /\ Z.shiftr (Z.land (@tuned_cmd pcix_layout (sample_info 1 3)
                         (@pcix_status pcix_layout sample_config sample_device)
                         (@pcix_orig_cmd pcix_layout sample_config
                            sample_device))
                 112) 4 = 1
  /\ Z.land (@tuned_cmd pcix_layout (sample_info 1 3)
               (@pcix_status pcix_layout sample_config sample_device)
               (@pcix_orig_cmd pcix_layout sample_config sample_device))
       1 = 0
  /\ Z.land (@tuned_cmd pcix_layout (sample_info 1 3)
               (@pcix_status pcix_layout sample_config sample_device)
               (@pcix_orig_cmd pcix_layout sample_config sample_device))
       (Z.lnot 125) = 0.
Proof.
  apply (tuned_cmd_fields pcix_layout sample_config sample_device
           (sample_info 1 3)).
  unfold standard_pcix_fields. repeat (split; [reflexivity |]). reflexivity.
Defined.

(** X11: with the standard field layout the tuning is idempotent: once the
    command register reads back the value the tuning computed,
    [amd8132_pcix_tune_dev] makes no further write. *)
Theorem tune_dev_idempotent :
  forall (defs : pci_defs) (cfg : pci_config)
         (dev : device) (info : amd8132_bus_info),
    standard_pcix_fields defs ->
    @amd8132_pcix_tune_dev defs
      (command_reads cfg
         (tuned_cmd info (pcix_status dev) (pcix_orig_cmd dev)))
      dev info = [].
Proof.
  intros defs cfg dev info layout. unfold amd8132_pcix_tune_dev.
  destruct (negb (hdr_type dev =? PCI_HEADER_TYPE_NORMAL)); [reflexivity |].
  change (@pcix_cap defs (command_reads cfg _) dev)
    with (@pcix_cap defs cfg dev).
  destruct (pcix_cap dev =? 0); [reflexivity |].
  change (@pcix_status defs (command_reads cfg _) dev)
    with (@pcix_status defs cfg dev).
  change (@pcix_orig_cmd defs (command_reads cfg _) dev)
    with (u16 (tuned_cmd info (pcix_status dev) (pcix_orig_cmd dev))).
  rewrite tuned_cmd_as_read_width.
  rewrite (tuned_cmd_idempotent layout).
  - rewrite Z.eqb_refl. reflexivity.
  - apply (bits_below_mono 16); [lia |]. unfold pcix_orig_cmd, u16.
    apply bits_below_mod_width. lia.
Qed.

Lemma tune_dev_idempotent_witness :
  @amd8132_pcix_tune_dev pcix_layout
    (command_reads sample_config
       (@tuned_cmd pcix_layout (sample_info 1 3)
          (@pcix_status pcix_layout sample_config sample_device)
          (@pcix_orig_cmd pcix_layout sample_config sample_device)))
    sample_device (sample_info 1 3) = [].
Proof.
  apply (tune_dev_idempotent pcix_layout sample_config sample_device
           (sample_info 1 3)).
  unfold standard_pcix_fields. repeat (split; [reflexivity |]). reflexivity.
Defined.

(** ** X12SPW: DQ and DQS maps *)

Import X12spwSpd.

Lemma memcpy_frame :
  forall (dest src : list Z) (n : nat),
    (n <= List.length src)%nat ->
    (n <= List.length dest)%nat ->
    List.length (memcpy dest src n) = List.length dest
    /\ firstn n (memcpy dest src n) = firstn n src
    /\ skipn n (memcpy dest src n) = skipn n dest.
Proof.
  intros dest src n Hsrc Hdest. unfold memcpy.
  assert (Hlen : List.length (firstn n src) = n)
    by (rewrite length_firstn; lia).
  split; [| split].
  - rewrite length_app, Hlen, length_skipn. lia.
  - rewrite firstn_app, Hlen, Nat.sub_diag, firstn_O, app_nil_r.
    apply firstn_all2. lia.
  - rewrite skipn_app, Hlen, Nat.sub_diag, skipn_O.
    rewrite skipn_all2 by lia. reflexivity.
Qed.

(** X12: on a buffer of at least 12 bytes, [mainboard_fill_dq_map_ch0]
    replaces the first 12 bytes by the DQ byte map and keeps the length of
    the buffer and every later byte; [mainboard_fill_dq_map_ch1] gives
    channel 1 the same map. *)
Theorem fill_dq_map_frame :
  forall (buf : list Z),
    (12 <= List.length buf)%nat ->
    List.length (mainboard_fill_dq_map_ch0 buf) = List.length buf
    /\ firstn 12 (mainboard_fill_dq_map_ch0 buf) =
         [0x0F; 0xF0; 0x0F; 0xF0; 0xFF; 0; 0; 0; 0; 0; 0; 0]
    /\ skipn 12 (mainboard_fill_dq_map_ch0 buf) = skipn 12 buf
    /\ mainboard_fill_dq_map_ch1 buf = mainboard_fill_dq_map_ch0 buf.
Proof.
  intros buf Hroom. unfold mainboard_fill_dq_map_ch1, mainboard_fill_dq_map_ch0.
  cbv zeta. unfold sizeof. cbn [List.length].
  match goal with
  | |- context [memcpy buf ?t 12] =>
      destruct (memcpy_frame buf t 12) as [Hlen [Hfirst Hrest]];
      [cbn; lia | exact Hroom |]
  end.
  repeat split; assumption.
Qed.

Lemma fill_dq_map_frame_witness :
  List.length (mainboard_fill_dq_map_ch0 (repeat 0xAA 16)) = 16%nat
  /\ firstn 12 (mainboard_fill_dq_map_ch0 (repeat 0xAA 16)) =
       [0x0F; 0xF0; 0x0F; 0xF0; 0xFF; 0; 0; 0; 0; 0; 0; 0]
  /\ skipn 12 (mainboard_fill_dq_map_ch0 (repeat 0xAA 16)) =
       [0xAA; 0xAA; 0xAA; 0xAA]
  /\ mainboard_fill_dq_map_ch1 (repeat 0xAA 16) =
       mainboard_fill_dq_map_ch0 (repeat 0xAA 16).
Proof.
  apply (fill_dq_map_frame (repeat 0xAA 16)). cbn. lia.
Defined.

Lemma lanes_permutation :
  forall (l : list Z),
    NoDup l ->
    List.length l = 8%nat ->
    (forall x : Z, In x l -> 0 <= x < 8) ->
    Permutation l [0; 1; 2; 3; 4; 5; 6; 7].
Proof.
  intros l Hnodup Hlen Hrange.
  apply NoDup_Permutation_bis.
  - exact Hnodup.
  - rewrite Hlen. cbn. lia.
  - intros x Hx. destruct (Hrange x Hx) as [Hlo Hhi]. cbn.
    assert (x = 0 \/ x = 1 \/ x = 2 \/ x = 3 \/ x = 4 \/ x = 5 \/ x = 6
            \/ x = 7) as Hcases by lia.
    intuition auto.
Qed.

Ltac in_cases :=
  repeat match goal with
         | H : In _ (_ :: _) |- _ => destruct H as [H | H]
         | H : In _ [] |- _ => destruct H
         end;
  lia.

Ltac lanes_solve :=
  apply lanes_permutation;
  [ repeat (apply NoDup_cons; [intro; in_cases |]); apply NoDup_nil
  | reflexivity
  | intros; in_cases ].

(** X13: on a buffer of at least 8 bytes, [mainboard_fill_dqs_map_ch0] and
    [mainboard_fill_dqs_map_ch1] each write a permutation of the lanes
    0 to 7 into the first 8 bytes (every DQS lane is mapped exactly once),
    and keep the length of the buffer and every later byte. *)
Theorem fill_dqs_map_permutation :
  forall (buf : list Z),
    (8 <= List.length buf)%nat ->
    Permutation (firstn 8 (mainboard_fill_dqs_map_ch0 buf))
      [0; 1; 2; 3; 4; 5; 6; 7]
    /\ Permutation (firstn 8 (mainboard_fill_dqs_map_ch1 buf))
         [0; 1; 2; 3; 4; 5; 6; 7]
    /\ skipn 8 (mainboard_fill_dqs_map_ch0 buf) = skipn 8 buf
    /\ skipn 8 (mainboard_fill_dqs_map_ch1 buf) = skipn 8 buf
    /\ List.length (mainboard_fill_dqs_map_ch0 buf) = List.length buf
    /\ List.length (mainboard_fill_dqs_map_ch1 buf) = List.length buf.
Proof.
  intros buf Hroom.
  unfold mainboard_fill_dqs_map_ch0, mainboard_fill_dqs_map_ch1.
  cbv zeta. unfold sizeof. cbn [List.length].
  destruct (memcpy_frame buf [2; 0; 1; 3; 6; 4; 7; 5] 8)
    as [Hlen0 [Hfirst0 Hrest0]]; [cbn; lia | exact Hroom |].
  destruct (memcpy_frame buf [1; 3; 2; 0; 5; 7; 6; 4] 8)
    as [Hlen1 [Hfirst1 Hrest1]]; [cbn; lia | exact Hroom |].
  rewrite Hfirst0, Hfirst1. cbn [firstn].
  split; [lanes_solve | split; [lanes_solve |]].
  repeat split; assumption.
Qed.

Lemma fill_dqs_map_permutation_witness :
  Permutation (firstn 8 (mainboard_fill_dqs_map_ch0 (repeat 0 8)))
    [0; 1; 2; 3; 4; 5; 6; 7]
  /\ Permutation (firstn 8 (mainboard_fill_dqs_map_ch1 (repeat 0 8)))
       [0; 1; 2; 3; 4; 5; 6; 7]
  /\ skipn 8 (mainboard_fill_dqs_map_ch0 (repeat 0 8)) = skipn 8 (repeat 0 8)
  /\ skipn 8 (mainboard_fill_dqs_map_ch1 (repeat 0 8)) = skipn 8 (repeat 0 8)
  /\ List.length (mainboard_fill_dqs_map_ch0 (repeat 0 8)) =
       List.length (repeat 0 8)
  /\ List.length (mainboard_fill_dqs_map_ch1 (repeat 0 8)) =
       List.length (repeat 0 8).
Proof.
  apply (fill_dqs_map_permutation (repeat 0 8)). cbn. lia.
Defined.

(** ** AMD 8132: further properties of the tuning and of the count *)

(** In PCI-X mode the scan of the sample bus counts three masters and, the
    bridge being an A1, limits each of the three cards to field value 1;
    the bridge below and the device off the PCI path are not written. *)
Example scan_bus_sample_tuning :
  @amd8132_scan_bus pcix_layout sample_bus_defs pcix_mode_hw
    sample_bus 0 255 1 tt =
    (1, tt,
     [ cfg_write16 (pci_write_config16 {| devfn := 8; hdr_type := 0 |} 98 28);
       cfg_write16 (pci_write_config16 {| devfn := 24; hdr_type := 0 |} 98 28);
       cfg_write16 (pci_write_config16 {| devfn := 25; hdr_type := 0 |} 98 28)
     ]).
Proof. reflexivity. Qed.

(** X14: a device that is not of normal header type, or that has no PCI-X
    capability, is left alone by [amd8132_pcix_tune_dev]. *)
Theorem tune_dev_skips :
  forall (defs : pci_defs) (cfg : pci_config)
         (dev : device) (info : amd8132_bus_info),
    hdr_type dev <> PCI_HEADER_TYPE_NORMAL \/ pcix_cap dev = 0 ->
    amd8132_pcix_tune_dev dev info = [].
Proof.
  intros defs cfg dev info [Hhdr | Hcap]; unfold amd8132_pcix_tune_dev.
  - apply Z.eqb_neq in Hhdr. rewrite Hhdr. reflexivity.
  - destruct (negb (hdr_type dev =? PCI_HEADER_TYPE_NORMAL)); [reflexivity |].
    rewrite Hcap. reflexivity.
Qed.

Lemma tune_dev_skips_witness :
  @amd8132_pcix_tune_dev pcix_layout sample_config
    {| devfn := 16; hdr_type := 1 |} (sample_info 1 3) = [].
Proof.
  apply (tune_dev_skips pcix_layout sample_config
           {| devfn := 16; hdr_type := 1 |} (sample_info 1 3)).
  left. vm_compute. discriminate.
Defined.

(** X15: on a bus with more master devices the limit on split transactions
    is never looser: for counts [m <= m'] (as [int]s) and the same status
    and revision, the value for [m'] masters is at most the value for [m]. *)
Theorem more_masters_tighter_limit :
  forall (defs : pci_defs) (status ss r mf m m' : Z),
    - 2 ^ 31 < m ->
    m <= m' ->
    m' < 2 ^ 31 ->
    tuned_max_tran
      {| sstatus := ss; rev := r; master_devices := m'; max_func := mf |}
      status
    <= tuned_max_tran
         {| sstatus := ss; rev := r; master_devices := m; max_func := mf |}
         status.
Proof.
  intros defs status ss r mf m m' Hlo Hle Hhi.
  unfold tuned_max_tran, errata53.
  rewrite !sibs_of_count by (cbn [master_devices]; lia).
  cbn [rev master_devices].
  destruct (r =? 1); [| lia].
  generalize (status_max_tran status). intro v.
  destruct (Z.leb_spec 2 (m' - 1)), (Z.leb_spec 2 (m - 1)),
    (Z.eqb_spec (m' - 1) 1), (Z.eqb_spec (m - 1) 1),
    (Z.ltb_spec 1 v), (Z.ltb_spec 3 v), (Z.ltb_spec 4 v); lia.
Qed.

Lemma more_masters_tighter_limit_witness :
  @tuned_max_tran pcix_layout (sample_info 1 3) 65011712
  <= @tuned_max_tran pcix_layout (sample_info 1 2) 65011712.
Proof.
  apply (more_masters_tighter_limit pcix_layout 65011712 0 1 0 2 3); lia.
Defined.

Lemma count_dev_max_func :
  forall (bdefs : bus_defs) (d : device) (info : amd8132_bus_info),
    (forall x : Z, 0 <= PCI_FUNC x < 2 ^ 31) ->
    max_func (amd8132_count_dev d info) =
      Z.max (max_func info) (PCI_FUNC (devfn d)).
Proof.
  intros bdefs d info Hfunc. unfold amd8132_count_dev.
  assert (Hs : s32 (PCI_FUNC (devfn d)) = PCI_FUNC (devfn d)).
  { unfold s32. specialize (Hfunc (devfn d)). rewrite Z.mod_small; lia. }
  destruct (negb (hdr_type d =? PCI_HEADER_TYPE_BRIDGE)); cbn [max_func];
    destruct (Z.ltb_spec (max_func info) (PCI_FUNC (devfn d)));
    cbn [max_func]; lia.
Qed.

Lemma count_fold_max_func :
  forall (bdefs : bus_defs) (l : list device) (info : amd8132_bus_info),
    (forall x : Z, 0 <= PCI_FUNC x < 2 ^ 31) ->
    let after := fold_left (fun s d => amd8132_count_dev d s) l info in
    max_func info <= max_func after
    /\ (forall d : device, In d l -> PCI_FUNC (devfn d) <= max_func after)
    /\ (max_func after = max_func info
        \/ exists d : device, In d l /\ max_func after = PCI_FUNC (devfn d)).
Proof.
  intros bdefs l. induction l as [| d r IH]; intros info Hfunc; cbn zeta.
  - cbn. split; [lia | split; [intros d [] | left; reflexivity]].
  - cbn [fold_left].
    destruct (IH (amd8132_count_dev d info) Hfunc) as [Hge [Hall Hatt]].
    cbn zeta in Hge, Hall, Hatt.
    rewrite (count_dev_max_func bdefs d info Hfunc) in Hge, Hatt.
    split; [lia | split].
    + intros d' [Hd | Hd]; [subst d'; lia | apply Hall, Hd].
    + destruct Hatt as [Hsame | (d' & Hin & Hd')].
      * destruct (Z.max_spec (max_func info) (PCI_FUNC (devfn d)))
          as [[_ Hmax] | [_ Hmax]].
        -- right. exists d. split; [left; reflexivity | lia].
        -- left. lia.
      * right. exists d'. split; [right; exact Hin | exact Hd'].
Qed.

(** X16: when function numbers are below 2^31 (they are at most 7),
    [info.max_func] after the counting walk of [amd8132_scan_bus] is the
    largest function number among the visited devices: no visited device
    has a larger one, and it is 0 or the function number of one of them. *)
Theorem scan_bus_max_func :
  forall (defs : pci_defs) (bdefs : bus_defs) (hwc : pci_hw)
         (h : hw) (b : bus),
    (forall x : Z, 0 <= PCI_FUNC x < 2 ^ 31) ->
    (forall d : device,
        In d (visited (children b)) ->
        PCI_FUNC (devfn d) <= max_func (scanned_info h b))
    /\ (max_func (scanned_info h b) = 0
        \/ exists d : device,
            In d (visited (children b))
            /\ max_func (scanned_info h b) = PCI_FUNC (devfn d)).
Proof.
  intros defs bdefs hwc h b Hfunc. unfold scanned_info.
  rewrite walk_children_over_visited.
  match goal with
  | |- context [fold_left _ _ ?i] =>
      destruct (count_fold_max_func bdefs (visited (children b)) i Hfunc)
        as [_ [Hall Hatt]]
  end.
  cbn zeta in Hall, Hatt. split; [exact Hall | exact Hatt].
Qed.

Lemma land_7_range :
  forall (x : Z), 0 <= Z.land x 7 < 2 ^ 31.
Proof.
  intro x. change 7 with (Z.ones 3). rewrite Z.land_ones by lia.
  pose proof (Z.mod_pos_bound x (2 ^ 3)). lia.
Qed.

Lemma scan_bus_max_func_witness :
  (forall d : device,
      In d (@visited sample_bus_defs (children sample_bus)) ->
      @PCI_FUNC sample_bus_defs (devfn d)
      <= max_func (@scanned_info pcix_layout sample_bus_defs quiet_hw
                     tt sample_bus))
  /\ (max_func (@scanned_info pcix_layout sample_bus_defs quiet_hw
                  tt sample_bus) = 0
      \/ exists d : device,
          In d (@visited sample_bus_defs (children sample_bus))
          /\ max_func (@scanned_info pcix_layout sample_bus_defs quiet_hw
                         tt sample_bus) =
             @PCI_FUNC sample_bus_defs (devfn d)).
Proof.
  apply (scan_bus_max_func pcix_layout sample_bus_defs quiet_hw tt sample_bus).
  intro x. apply land_7_range.
Defined.
